(** * sim-lab: the session orchestrator of [src/App.tsx] and the oracle
      client of [src/services/geminiService.ts]

    The development has two layers.

    - [GeminiService] embeds the part of every service function that runs
      after the remote call has answered: [JSON.parse(response.text.trim())]
      inside (or outside) a [try]/[catch].
    - [App] embeds the React component: its state variables, its handlers,
      the closures the handlers capture, the browser timer table and the
      promises that are still pending.

    Conventions of the model:

    - Strings are 8-bit strings; every character stands for one code unit.
    - The answers of the oracle are inputs: a pending promise settles with
      whatever value or rejection the environment chooses, in any order.
    - The component uses an answer of the client at the type its service
      function declares, the shape the [responseSchema] of the request
      asks for; [Answers] reads that type off the JSON value the client
      returned. The client does not check the shape, and an answer outside
      it is not an input of the session layer.
    - An event of the operator runs the handler of the latest render, so the
      state variables the handler reads are the committed ones. A function
      that was suspended at an [await], or handed to a timer, keeps reading
      the variables of the render that created it.
    - The setters called by one handler are applied in the order of the
      calls, which is what React's update queue computes; the handler never
      reads them back.
    - The clock counts milliseconds. A timer fires no sooner than it is due;
      a repeating timer is armed again, one period ahead, after its callback
      has run. *)

From Stdlib Require Import String Ascii List Arith NArith Lia Bool DecimalString.
From stdpp Require Import base option list strings gmap fin_maps.

Local Open Scope string_scope.
Local Open Scope list_scope.
Local Open Scope nat_scope.

(** ** JavaScript built-ins used by the source *)

Module Js.

(** [String.prototype.trim]: the white space and line terminator code
    units below 256 are TAB, LF, VT, FF, CR, SP and NBSP. *)
Definition is_space (c : ascii) : bool :=
  let n := nat_of_ascii c in
  ((9 <=? n) && (n <=? 13)) || (n =? 32) || (n =? 160).

Fixpoint trim_start (s : string) : string :=
  match s with
  | String c r => if is_space c then trim_start r else s
  | EmptyString => EmptyString
  end.

Fixpoint trim_end (s : string) : string :=
  match s with
  | String c r =>
      match trim_end r with
      | EmptyString => if is_space c then EmptyString else String c EmptyString
      | r' => String c r'
      end
  | EmptyString => EmptyString
  end.

Definition trim (s : string) : string := trim_end (trim_start s).

(** [s.substring(0, n)] *)
Definition substring0 (n : nat) (s : string) : string := String.substring 0 n s.

(** Truthiness of a string: only the empty string is falsy. *)
Definition truthy (s : string) : bool :=
  match s with EmptyString => false | _ => true end.

(** [x || d] for an optional string property: [undefined] and [''] both
    give [d]. *)
Definition or_else (x : option string) (d : string) : string :=
  match x with
  | Some s => if truthy s then s else d
  | None => d
  end.

(** The one-character string holding a double quote. *)
Definition dq : string := String (ascii_of_nat 34) EmptyString.

(** A template-literal hole [${x}] holding an optional string. *)
Definition show (x : option string) : string :=
  match x with Some s => s | None => "undefined" end.

(** A template-literal hole holding a non-negative integer. *)
Definition show_nat (n : nat) : string :=
  NilEmpty.string_of_uint (Nat.to_uint n).

(** What a promise settles to. [Rejected] carries the name of the error. *)
Inductive Outcome (A : Type) : Type :=
| Resolved (a : A)
| Rejected (err : string).
Arguments Resolved {A} a.
Arguments Rejected {A} err.

(** [Promise.all([p, q])]: fulfilled with both values, rejected as soon as
    one of the two is. *)
Definition Promise_all {A B : Type} (p : Outcome A) (q : Outcome B) : Outcome (A * B) :=
  match p, q with
  | Resolved a, Resolved b => Resolved (a, b)
  | Rejected e, _ => Rejected e
  | _, Rejected e => Rejected e
  end.

End Js.

(** ** JSON values

  The value [JSON.parse] returns, as the tree of the text it was read
  from: a number is kept as its lexeme and a string as the characters
  between its quotes (escapes are checked, not expanded), so no floating
  point conversion and no code unit above 255 is needed. Members of an
  object are kept in the order of the text. *)

#[warnings="-register-all"]
Inductive Json : Type :=
| JNull
| JBool (b : bool)
| JNumber (lexeme : string)
| JString (s : string)
| JArray (elements : list Json)
| JObject (members : list (string * Json)).

(** ** A reference [JSON.parse]

  A recursive-descent reader of the JSON grammar (ECMA-404), used to run
  the service functions on concrete texts. [None] is the [SyntaxError]. *)

Module JsonText.

Definition is_ws (c : ascii) : bool :=
  let n := nat_of_ascii c in
  (n =? 32) || (n =? 9) || (n =? 10) || (n =? 13).

Definition is_digit (c : ascii) : bool :=
  let n := nat_of_ascii c in (48 <=? n) && (n <=? 57).

Definition quote : ascii := ascii_of_nat 34.

Definition is_hex (c : ascii) : bool :=
  let n := nat_of_ascii c in
  ((48 <=? n) && (n <=? 57)) || ((65 <=? n) && (n <=? 70)) || ((97 <=? n) && (n <=? 102)).

Fixpoint skip_ws (cs : list ascii) : list ascii :=
  match cs with
  | c :: r => if is_ws c then skip_ws r else cs
  | [] => []
  end.

Fixpoint span_digits (cs : list ascii) : list ascii * list ascii :=
  match cs with
  | c :: r => if is_digit c then let '(d, r') := span_digits r in (c :: d, r')
              else ([], cs)
  | [] => ([], [])
  end.

Definition expect (lit : string) (cs : list ascii) : option (list ascii) :=
  let l := list_ascii_of_string lit in
  if decide (take (List.length l) cs = l) then Some (drop (List.length l) cs) else None.

(** The body of a string literal, after the opening quote. *)
Fixpoint string_body (cs : list ascii) (acc : list ascii) : option (string * list ascii) :=
  match cs with
  | [] => None
  | c :: r =>
      if Ascii.eqb c quote then Some (string_of_list_ascii (rev acc), r)
      else if Ascii.eqb c "\"%char then
        match r with
        | e :: r1 =>
            if existsb (Ascii.eqb e) (quote :: list_ascii_of_string "\/bfnrt") then
              string_body r1 (e :: c :: acc)
            else if Ascii.eqb e "u"%char then
              match r1 with
              | h1 :: h2 :: h3 :: h4 :: r2 =>
                  if is_hex h1 && is_hex h2 && is_hex h3 && is_hex h4
                  then string_body r2 (h4 :: h3 :: h2 :: h1 :: e :: c :: acc)
                  else None
              | _ => None
              end
            else None
        | [] => None
        end
      else if nat_of_ascii c <? 32 then None
      else string_body r (c :: acc)
  end.

(** number = [-] int [frac] [exp] *)
Definition number (cs : list ascii) : option (string * list ascii) :=
  let '(sign, r0) :=
    match cs with
    | c :: r => if Ascii.eqb c "-"%char then ([c], r) else ([], cs)
    | [] => ([], cs)
    end in
  let '(int, r1) := span_digits r0 in
  match int with
  | [] => None
  | d :: ds =>
      if Ascii.eqb d "0"%char && negb (Nat.eqb (List.length ds) 0) then None else
      let frac :=
        match r1 with
        | c :: r =>
            if Ascii.eqb c "."%char then
              let '(f, r2) := span_digits r in
              match f with [] => None | _ => Some (c :: f, r2) end
            else Some ([], r1)
        | [] => Some ([], r1)
        end in
      match frac with
      | None => None
      | Some (f, r2) =>
          let exp :=
            match r2 with
            | c :: r =>
                if Ascii.eqb c "e"%char || Ascii.eqb c "E"%char then
                  let '(sg, r3) :=
                    match r with
                    | s :: r' =>
                        if Ascii.eqb s "+"%char || Ascii.eqb s "-"%char
                        then ([s], r') else ([], r)
                    | [] => ([], r)
                    end in
                  let '(e, r4) := span_digits r3 in
                  match e with [] => None | _ => Some (c :: sg ++ e, r4) end
                else Some ([], r2)
            | [] => Some ([], r2)
            end in
          match exp with
          | None => None
          | Some (e, r3) => Some (string_of_list_ascii (sign ++ int ++ f ++ e), r3)
          end
      end
  end.

Fixpoint value (fuel : nat) (cs : list ascii) : option (Json * list ascii) :=
  match fuel with
  | 0 => None
  | S fuel =>
      match skip_ws cs with
      | [] => None
      | c :: r =>
          if Ascii.eqb c "{"%char then
            match skip_ws r with
            | c1 :: r1 =>
                if Ascii.eqb c1 "}"%char then Some (JObject [], r1)
                else members fuel (c1 :: r1) []
            | [] => None
            end
          else if Ascii.eqb c "["%char then
            match skip_ws r with
            | c1 :: r1 =>
                if Ascii.eqb c1 "]"%char then Some (JArray [], r1)
                else elements fuel (c1 :: r1) []
            | [] => None
            end
          else if Ascii.eqb c quote then
            match string_body r [] with
            | Some (s, r1) => Some (JString s, r1)
            | None => None
            end
          else if Ascii.eqb c "t"%char then
            match expect "true" (c :: r) with Some r1 => Some (JBool true, r1) | None => None end
          else if Ascii.eqb c "f"%char then
            match expect "false" (c :: r) with Some r1 => Some (JBool false, r1) | None => None end
          else if Ascii.eqb c "n"%char then
            match expect "null" (c :: r) with Some r1 => Some (JNull, r1) | None => None end
          else
            match number (c :: r) with
            | Some (n, r1) => Some (JNumber n, r1)
            | None => None
            end
      end
  end
with elements (fuel : nat) (cs : list ascii) (acc : list Json) : option (Json * list ascii) :=
  match fuel with
  | 0 => None
  | S fuel =>
      match value fuel cs with
      | Some (v, r) =>
          match skip_ws r with
          | c :: r1 =>
              if Ascii.eqb c ","%char then elements fuel r1 (v :: acc)
              else if Ascii.eqb c "]"%char then Some (JArray (rev (v :: acc)), r1)
              else None
          | [] => None
          end
      | None => None
      end
  end
with members (fuel : nat) (cs : list ascii) (acc : list (string * Json)) : option (Json * list ascii) :=
  match fuel with
  | 0 => None
  | S fuel =>
      match skip_ws cs with
      | q :: r =>
          if Ascii.eqb q quote then
            match string_body r [] with
            | Some (k, r1) =>
                match skip_ws r1 with
                | c :: r2 =>
                    if Ascii.eqb c ":"%char then
                      match value fuel r2 with
                      | Some (v, r3) =>
                          match skip_ws r3 with
                          | d :: r4 =>
                              if Ascii.eqb d ","%char then members fuel r4 ((k, v) :: acc)
                              else if Ascii.eqb d "}"%char
                              then Some (JObject (rev ((k, v) :: acc)), r4)
                              else None
                          | [] => None
                          end
                      | None => None
                      end
                    else None
                | [] => None
                end
            | None => None
            end
          else None
      | [] => None
      end
  end.

(** Every call consumes a character, so twice the length is fuel enough. *)
Definition parse (text : string) : option Json :=
  let cs := list_ascii_of_string text in
  match value (2 * List.length cs + 2) cs with
  | Some (v, r) => match skip_ws r with [] => Some v | _ => None end
  | None => None
  end.

End JsonText.

(** ** The data model: [types.ts]

    An optional property is an [option], [None] being the absent property.
    [HistoryItem], the result of the import and the entries of the example
    catalog are declared where they are used; they are collected here. *)

Module PduComponent.
Record t : Type := { name : string; value : string; description : string; isVulnerable : option bool }.
End PduComponent.

Module DecodedPdu.
Record t : Type := { components : list PduComponent.t }.
End DecodedPdu.

Inductive RiskLevel : Type := Low | Medium | High | Critical.

Definition RiskLevel_show (r : RiskLevel) : string :=
  match r with Low => "Low" | Medium => "Medium" | High => "High" | Critical => "Critical" end.

Module AnalysisResult.
Record t : Type := {
  isSilent : bool;
  explanation : string;
  riskLevel : RiskLevel;
  mitigation : string;
  isStkCommand : option bool;
  targetApp : option string
}.
End AnalysisResult.

Module StkBuilderParams.
Record t : Type := {
  displayText : option string;
  targetNumber : option string;
  urlOrData : option string;
  pinOrPassword : option string;
  commandType : option string
}.

(** One property of [{...a, ...b}]: the one of [b] when [b] has it. *)
Definition over (a b : option string) : option string :=
  match b with Some _ => b | None => a end.

(** The object spread [{...a, ...b}]. *)
Definition spread (a b : t) : t :=
  {| displayText := over (displayText a) (displayText b);
     targetNumber := over (targetNumber a) (targetNumber b);
     urlOrData := over (urlOrData a) (urlOrData b);
     pinOrPassword := over (pinOrPassword a) (pinOrPassword b);
     commandType := over (commandType a) (commandType b) |}.

(** [{...a, ...b}] when [b] may be [undefined]: spreading [undefined] adds
    nothing. *)
Definition spread_any (a : t) (b : option t) : t :=
  match b with Some b => spread a b | None => a end.
End StkBuilderParams.

Module StkCommand.
Record t : Type := {
  name : string;
  description : string;
  payload : string;
  impact : string;
  stkType : option string
}.
End StkCommand.

Inductive LogType : Type :=
| PDU_ENCODE | VULN_SCAN | STK_GEN | SYS_LOG | TERMUX_CMD | SUCCESS | RECV_DATA.

Module HistoryItem.
(** [id] is the token drawn from [Math.random]; the model draws it from a
    counter and relies on nothing about it. *)
Record t : Type := { id : nat; timestamp : N; type : LogType; content : string }.
End HistoryItem.

(** What [importStkParamsFromPdu] promises. *)
Module ImportResult.
Record t : Type := { params : StkBuilderParams.t; stkType : string }.
End ImportResult.

(** An entry of [educationalExamples]; [applyExample] takes it as [any]. *)
Module Example.
Record t : Type := {
  name : string;
  type : string;
  description : string;
  content : option string;
  pdu : option string;
  params : option StkBuilderParams.t;
  stk : option string
}.
End Example.

(** ** The oracle client: [src/services/geminiService.ts]

  Every service function awaits [ai.models.generateContent] and then
  reads [response.text]. The answer of the remote call is the input of
  the model: a rejection of the awaited promise, or a response whose
  [text] is a string or [undefined]. The other arguments of a function
  only shape the request it sends. *)

Module GeminiService.
Import Js.

Record GenerateContentResponse : Type := { text : option string }.

(** [obj[key]] on a parsed object: the last member of that name wins. *)
Fixpoint get (key : string) (members : list (string * Json)) : option Json :=
  match members with
  | [] => None
  | (k, v) :: r =>
      match get key r with
      | Some v' => Some v'
      | None => if String.eqb k key then Some v else None
      end
  end.

Definition member (key : string) (j : Json) : option Json :=
  match j with JObject m => get key m | _ => None end.

(** The fallback literals of the three [catch] blocks. *)
Definition analysis_fallback : Json :=
  JObject [("isSilent", JBool false);
           ("explanation", JString "Failed to parse analysis results.");
           ("riskLevel", JString "Low");
           ("mitigation", JString "Ensure the PDU string is valid hex format.")].

Definition decode_fallback : Json := JObject [("components", JArray [])].

Definition import_fallback : Json :=
  JObject [("stkType", JString "SAT_BROWSER");
           ("params", JObject [("commandType", JString "DISPLAY TEXT");
                               ("displayText", JString EmptyString);
                               ("targetNumber", JString EmptyString);
                               ("urlOrData", JString EmptyString);
                               ("pinOrPassword", JString EmptyString)])].

(** A default of [SAT_BROWSER] with every field of the params empty, for
    comparison with [import_fallback]. *)
Definition all_empty_default : Json :=
  JObject [("stkType", JString "SAT_BROWSER");
           ("params", JObject [("commandType", JString EmptyString);
                               ("displayText", JString EmptyString);
                               ("targetNumber", JString EmptyString);
                               ("urlOrData", JString EmptyString);
                               ("pinOrPassword", JString EmptyString)])].

Section Client.

(** [JSON.parse] of the host; [None] when it throws its [SyntaxError]. *)
Variable JSON_parse : string -> option Json.

(** [JSON.parse(response.text.trim())]: reading [trim] off [undefined]
    throws a [TypeError], text that is not JSON a [SyntaxError]. *)
Definition parse_text (response : GenerateContentResponse) : Outcome Json :=
  match text response with
  | None => Rejected "TypeError"
  | Some t =>
      match JSON_parse (trim t) with
      | Some v => Resolved v
      | None => Rejected "SyntaxError"
      end
  end.

(** The statement in the [try] throws: there is no text, or the text is
    not JSON. *)
Definition fails_to_parse (response : GenerateContentResponse) : Prop :=
  match text response with
  | None => True
  | Some t => JSON_parse (trim t) = None
  end.

(** [try { return JSON.parse(..) } catch (e) { return fallback }], after
    an [await] that is outside the [try]. *)
Definition parse_or (fallback : Json) (reply : Outcome GenerateContentResponse) : Outcome Json :=
  match reply with
  | Rejected e => Rejected e
  | Resolved response =>
      match parse_text response with
      | Resolved v => Resolved v
      | Rejected _ => Resolved fallback
      end
  end.

Definition analyzePduVulnerability (pdu : string) (reply : Outcome GenerateContentResponse)
  : Outcome Json := parse_or analysis_fallback reply.

Definition decodePdu (pdu : string) (reply : Outcome GenerateContentResponse)
  : Outcome Json := parse_or decode_fallback reply.

Definition importStkParamsFromPdu (pdu : string) (reply : Outcome GenerateContentResponse)
  : Outcome Json := parse_or import_fallback reply.

(** [return JSON.parse(response.text.trim())] with no [try] around it. *)
Definition getStkCommandInfo (commandName : string) (stkType : option string)
    (params : option StkBuilderParams.t) (reply : Outcome GenerateContentResponse)
  : Outcome Json :=
  match reply with
  | Rejected e => Rejected e
  | Resolved response => parse_text response
  end.

(** [return response.text] *)
Definition simulateExfiltratedData (commandType : string)
    (reply : Outcome GenerateContentResponse) : Outcome (option string) :=
  match reply with
  | Rejected e => Rejected e
  | Resolved response => Resolved (text response)
  end.

Definition getGeneralEducationalInfo (topic : string)
    (reply : Outcome GenerateContentResponse) : Outcome (option string) :=
  match reply with
  | Rejected e => Rejected e
  | Resolved response => Resolved (text response)
  end.

End Client.

(** The shape [interface AnalysisResult] of [types.ts] asks of a value:
    the four required members with their types, the two optional ones
    with theirs when present. *)
Definition is_boolean (j : Json) : bool := match j with JBool _ => true | _ => false end.
Definition is_string (j : Json) : bool := match j with JString _ => true | _ => false end.
Definition is_riskLevel (j : Json) : bool :=
  match j with
  | JString s => existsb (String.eqb s) ["Low"; "Medium"; "High"; "Critical"]
  | _ => false
  end.
Definition required (p : Json -> bool) (o : option Json) : bool :=
  match o with Some v => p v | None => false end.
Definition optional (p : Json -> bool) (o : option Json) : bool :=
  match o with Some v => p v | None => true end.

Definition has_AnalysisResult_shape (j : Json) : bool :=
  match j with
  | JObject m =>
      required is_boolean (get "isSilent" m) && required is_string (get "explanation" m)
      && required is_riskLevel (get "riskLevel" m) && required is_string (get "mitigation" m)
      && optional is_boolean (get "isStkCommand" m) && optional is_string (get "targetApp" m)
  | _ => false
  end.

End GeminiService.

(** ** The session: [src/App.tsx]

    The handlers take the values the service functions settle to at the
    types the source declares for them. The two effects of the component
    (scrolling the log, clearing the interval when the component is
    unmounted) are not transitions of a session and are left out. *)

Module App.
Import Js.

Inductive Tab : Type := analyzer | stk | termux.

(** The twelve [useState] variables. One value of [State] is what one render
    of the component sees, and what every function created by that render
    closes over. *)
Record State : Type := {
  activeTab : Tab;
  pduInput : string;
  importPdu : string;
  stkType : option string;
  builderParams : StkBuilderParams.t;
  history : list HistoryItem.t;
  isAnalyzing : bool;
  isRunning : bool;
  currentAnalysis : option AnalysisResult.t;
  decodedPdu : option DecodedPdu.t;
  stkCommand : option StkCommand.t;
  educationalContent : option string
}.

(** The setter of each state variable. *)
Definition set_activeTab (x : Tab) (s : State) : State :=
  {| activeTab := x; pduInput := pduInput s; importPdu := importPdu s; stkType := stkType s;
     builderParams := builderParams s; history := history s; isAnalyzing := isAnalyzing s;
     isRunning := isRunning s; currentAnalysis := currentAnalysis s;
     decodedPdu := decodedPdu s; stkCommand := stkCommand s;
     educationalContent := educationalContent s |}.

Definition set_pduInput (x : string) (s : State) : State :=
  {| activeTab := activeTab s; pduInput := x; importPdu := importPdu s; stkType := stkType s;
     builderParams := builderParams s; history := history s; isAnalyzing := isAnalyzing s;
     isRunning := isRunning s; currentAnalysis := currentAnalysis s;
     decodedPdu := decodedPdu s; stkCommand := stkCommand s;
     educationalContent := educationalContent s |}.

Definition set_importPdu (x : string) (s : State) : State :=
  {| activeTab := activeTab s; pduInput := pduInput s; importPdu := x; stkType := stkType s;
     builderParams := builderParams s; history := history s; isAnalyzing := isAnalyzing s;
     isRunning := isRunning s; currentAnalysis := currentAnalysis s;
     decodedPdu := decodedPdu s; stkCommand := stkCommand s;
     educationalContent := educationalContent s |}.

Definition set_stkType (x : option string) (s : State) : State :=
  {| activeTab := activeTab s; pduInput := pduInput s; importPdu := importPdu s;
     stkType := x; builderParams := builderParams s; history := history s;
     isAnalyzing := isAnalyzing s; isRunning := isRunning s;
     currentAnalysis := currentAnalysis s; decodedPdu := decodedPdu s;
     stkCommand := stkCommand s; educationalContent := educationalContent s |}.

Definition set_builderParams (x : StkBuilderParams.t) (s : State) : State :=
  {| activeTab := activeTab s; pduInput := pduInput s; importPdu := importPdu s;
     stkType := stkType s; builderParams := x; history := history s;
     isAnalyzing := isAnalyzing s; isRunning := isRunning s;
     currentAnalysis := currentAnalysis s; decodedPdu := decodedPdu s;
     stkCommand := stkCommand s; educationalContent := educationalContent s |}.

Definition set_history (x : list HistoryItem.t) (s : State) : State :=
  {| activeTab := activeTab s; pduInput := pduInput s; importPdu := importPdu s;
     stkType := stkType s; builderParams := builderParams s; history := x;
     isAnalyzing := isAnalyzing s; isRunning := isRunning s;
     currentAnalysis := currentAnalysis s; decodedPdu := decodedPdu s;
     stkCommand := stkCommand s; educationalContent := educationalContent s |}.

Definition set_isAnalyzing (x : bool) (s : State) : State :=
  {| activeTab := activeTab s; pduInput := pduInput s; importPdu := importPdu s;
     stkType := stkType s; builderParams := builderParams s; history := history s;
     isAnalyzing := x; isRunning := isRunning s; currentAnalysis := currentAnalysis s;
     decodedPdu := decodedPdu s; stkCommand := stkCommand s;
     educationalContent := educationalContent s |}.

Definition set_isRunning (x : bool) (s : State) : State :=
  {| activeTab := activeTab s; pduInput := pduInput s; importPdu := importPdu s;
     stkType := stkType s; builderParams := builderParams s; history := history s;
     isAnalyzing := isAnalyzing s; isRunning := x; currentAnalysis := currentAnalysis s;
     decodedPdu := decodedPdu s; stkCommand := stkCommand s;
     educationalContent := educationalContent s |}.

Definition set_currentAnalysis (x : option AnalysisResult.t) (s : State) : State :=
  {| activeTab := activeTab s; pduInput := pduInput s; importPdu := importPdu s;
     stkType := stkType s; builderParams := builderParams s; history := history s;
     isAnalyzing := isAnalyzing s; isRunning := isRunning s; currentAnalysis := x;
     decodedPdu := decodedPdu s; stkCommand := stkCommand s;
     educationalContent := educationalContent s |}.

Definition set_decodedPdu (x : option DecodedPdu.t) (s : State) : State :=
  {| activeTab := activeTab s; pduInput := pduInput s; importPdu := importPdu s;
     stkType := stkType s; builderParams := builderParams s; history := history s;
     isAnalyzing := isAnalyzing s; isRunning := isRunning s;
     currentAnalysis := currentAnalysis s; decodedPdu := x; stkCommand := stkCommand s;
     educationalContent := educationalContent s |}.

Definition set_stkCommand (x : option StkCommand.t) (s : State) : State :=
  {| activeTab := activeTab s; pduInput := pduInput s; importPdu := importPdu s;
     stkType := stkType s; builderParams := builderParams s; history := history s;
     isAnalyzing := isAnalyzing s; isRunning := isRunning s;
     currentAnalysis := currentAnalysis s; decodedPdu := decodedPdu s; stkCommand := x;
     educationalContent := educationalContent s |}.

Definition set_educationalContent (x : option string) (s : State) : State :=
  {| activeTab := activeTab s; pduInput := pduInput s; importPdu := importPdu s;
     stkType := stkType s; builderParams := builderParams s; history := history s;
     isAnalyzing := isAnalyzing s; isRunning := isRunning s;
     currentAnalysis := currentAnalysis s; decodedPdu := decodedPdu s;
     stkCommand := stkCommand s; educationalContent := x |}.

(** The calls made to the oracle, in the order they are issued. *)
Inductive OracleOp : Type :=
| Analyze (pdu : string)
| Decode (pdu : string)
| ImportParams (pdu : string)
| GenerateCommand (commandName : string) (stkType : option string) (params : option StkBuilderParams.t)
| SimulateExfiltration (commandType : string)
| ExplainTopic (topic : string).

Record OracleCall : Type := { at_time : N; op : OracleOp }.

(** An [async] function suspended at its [await], with the variables its
    remaining statements read. *)
Inductive Continuation : Type :=
| KAnalysis
| KImport
| KExecute (render : State) (cmdType : string) (isAuto : bool) (params : option StkBuilderParams.t)
| KFollowUp (cmdType : string)
| KEducation.

(** An entry of the browser's timer table. The repeating timer holds the
    closure [runNext]: its variable [index] and the render that created
    it. The one-shot timer holds the delayed follow-up of a command. *)
Inductive Timer : Type :=
| Interval (period due : N) (index : nat) (render : State)
| Timeout (due : N) (cmdType : string).

Definition due_time (t : Timer) : N :=
  match t with Interval _ d _ _ => d | Timeout d _ => d end.

(** The component and its environment: the committed state, the ref
    [intervalRef], the clock ([Date.now], in milliseconds), the timer
    table, the suspended continuations, the oracle calls issued so far,
    the rejections no handler caught, and the two allocators. *)
Record World : Type := {
  st : State;
  intervalRef : option nat;
  now : N;
  timers : gmap nat Timer;
  awaiting : gmap nat Continuation;
  issued : list OracleCall;
  unhandled : list string;
  nextHandle : nat;
  seed : nat
}.

(** The update of each field of the world. *)
Definition with_st (x : State) (w : World) : World :=
  {| st := x; intervalRef := intervalRef w; now := now w; timers := timers w;
     awaiting := awaiting w; issued := issued w; unhandled := unhandled w;
     nextHandle := nextHandle w; seed := seed w |}.

Definition with_intervalRef (x : option nat) (w : World) : World :=
  {| st := st w; intervalRef := x; now := now w; timers := timers w; awaiting := awaiting w;
     issued := issued w; unhandled := unhandled w; nextHandle := nextHandle w;
     seed := seed w |}.

Definition with_now (x : N) (w : World) : World :=
  {| st := st w; intervalRef := intervalRef w; now := x; timers := timers w;
     awaiting := awaiting w; issued := issued w; unhandled := unhandled w;
     nextHandle := nextHandle w; seed := seed w |}.

Definition with_timers (x : gmap nat Timer) (w : World) : World :=
  {| st := st w; intervalRef := intervalRef w; now := now w; timers := x;
     awaiting := awaiting w; issued := issued w; unhandled := unhandled w;
     nextHandle := nextHandle w; seed := seed w |}.

Definition with_awaiting (x : gmap nat Continuation) (w : World) : World :=
  {| st := st w; intervalRef := intervalRef w; now := now w; timers := timers w;
     awaiting := x; issued := issued w; unhandled := unhandled w; nextHandle := nextHandle w;
     seed := seed w |}.

Definition with_issued (x : list OracleCall) (w : World) : World :=
  {| st := st w; intervalRef := intervalRef w; now := now w; timers := timers w;
     awaiting := awaiting w; issued := x; unhandled := unhandled w;
     nextHandle := nextHandle w; seed := seed w |}.

Definition with_unhandled (x : list string) (w : World) : World :=
  {| st := st w; intervalRef := intervalRef w; now := now w; timers := timers w;
     awaiting := awaiting w; issued := issued w; unhandled := x; nextHandle := nextHandle w;
     seed := seed w |}.

Definition with_nextHandle (x : nat) (w : World) : World :=
  {| st := st w; intervalRef := intervalRef w; now := now w; timers := timers w;
     awaiting := awaiting w; issued := issued w; unhandled := unhandled w; nextHandle := x;
     seed := seed w |}.

Definition with_seed (x : nat) (w : World) : World :=
  {| st := st w; intervalRef := intervalRef w; now := now w; timers := timers w;
     awaiting := awaiting w; issued := issued w; unhandled := unhandled w;
     nextHandle := nextHandle w; seed := x |}.

(** *** Statements

    A handler is a function of the render it was created by (the values
    its free state variables have) and acts on the world. Reading a state
    variable reads the render; a setter writes the committed state. *)

Definition Action : Type := World -> World.

Definition seq (f g : Action) : Action := fun w => g (f w).
Notation "f >> g" := (seq f g) (at level 62, right associativity).

Definition skip : Action := fun w => w.

Definition when (b : bool) (f : Action) : Action := if b then f else skip.

(** [setX(v)], and [setX(prev => ..)] when the function reads its argument. *)
Definition setState (f : State -> State) : Action := fun w => with_st (f (st w)) w.

(** [addLog]: [setHistory(prev => [...prev, item])]. *)
Definition addLog (content : string) (type : LogType) : Action := fun w =>
  let item := {| HistoryItem.id := seed w; HistoryItem.timestamp := now w;
                 HistoryItem.type := type; HistoryItem.content := content |} in
  with_seed (S (seed w)) (setState (fun prev => set_history (history prev ++ [item]) prev) w).

(** A service function is called: its [generateContent] request leaves. *)
Definition call (o : OracleOp) : Action := fun w =>
  with_issued (issued w ++ [{| at_time := now w; op := o |}]) w.

(** The caller stops at its [await]. *)
Definition suspend (k : Continuation) : Action := fun w =>
  with_nextHandle (S (nextHandle w)) (with_awaiting (<[nextHandle w := k]> (awaiting w)) w).

(** [setTimeout(callback, delay)] *)
Definition setTimeout (cmdType : string) (delay : N) : Action := fun w =>
  with_nextHandle (S (nextHandle w))
    (with_timers (<[nextHandle w := Timeout (now w + delay)%N cmdType]> (timers w)) w).

(** [window.clearInterval(h)] *)
Definition clearInterval (h : nat) : Action := fun w => with_timers (delete h (timers w)) w.

(** *** The constants of the component *)

Definition autoCommands : list string :=
  ["Get Location"; "Exfiltrate IMEI"; "Request Subscriber ID"; "Query Cell ID"].

Definition nonRootSetupGuide : Example.t :=
  {| Example.name := "Non-Root Setup Guide"; Example.type := "termux";
     Example.description := "How to configure Termux for SMS research without requiring root access.";
     Example.content := Some "Termux Setup (Non-Root):
1. Install Termux:API app from F-Droid.
2. Run: pkg install termux-api
3. Grant SMS permissions in Android settings for Termux:API.
4. Use: termux-sms-send -n [num] [msg]

This method uses the Android OS layer to send binary payloads, which is safer and doesn't risk bricking your baseband via direct root AT command access.";
     Example.pdu := None; Example.params := None; Example.stk := None |}.

Definition silentSms : Example.t :=
  {| Example.name := "Silent SMS (Type 0)"; Example.type := "analyzer";
     Example.description := "A network ping that doesn't show up on the recipient's UI but returns a delivery receipt.";
     Example.content := None;
     Example.pdu := Some "079144775810065011000A81100000000040";
     Example.params := None; Example.stk := None |}.

Definition simjackerLocation : Example.t :=
  {| Example.name := "Simjacker Location"; Example.type := "stk";
     Example.description := "Classic S@T Browser vulnerability used to silently exfiltrate cell location data.";
     Example.content := None; Example.pdu := None;
     Example.params := Some {| StkBuilderParams.displayText := Some "Get Location";
                               StkBuilderParams.targetNumber := None;
                               StkBuilderParams.urlOrData := Some "MCC/MNC/LAC/CellID";
                               StkBuilderParams.pinOrPassword := None;
                               StkBuilderParams.commandType := Some "PROVIDE LOCAL INFO" |};
     Example.stk := Some "SAT_BROWSER" |}.

Definition wibImeiAudit : Example.t :=
  {| Example.name := "WIB IMEI Audit"; Example.type := "stk";
     Example.description := "Targets the SmartTrust WIB applet to request hardware identifiers.";
     Example.content := None; Example.pdu := None;
     Example.params := Some {| StkBuilderParams.displayText := Some "Audit Mode";
                               StkBuilderParams.targetNumber := None;
                               StkBuilderParams.urlOrData := Some "IMEI_REQ";
                               StkBuilderParams.pinOrPassword := None;
                               StkBuilderParams.commandType := Some "DISPLAY TEXT" |};
     Example.stk := Some "WIB" |}.

Definition educationalExamples : list Example.t :=
  [nonRootSetupGuide; silentSms; simjackerLocation; wibImeiAudit].

(** *** The handlers *)

Definition applyExample (r : State) (ex : Example.t) : Action :=
  if String.eqb (Example.type ex) "analyzer" && truthy (default EmptyString (Example.pdu ex)) then
    setState (set_activeTab analyzer) >>
    setState (set_pduInput (default EmptyString (Example.pdu ex))) >>
    addLog ("[EXAMPLE] Loaded " +:+ Example.name ex +:+ " into Analyzer.") SYS_LOG
  else if String.eqb (Example.type ex) "stk" && bool_decide (is_Some (Example.params ex)) then
    setState (set_activeTab stk) >>
    setState (set_stkType (Example.stk ex)) >>
    setState (set_builderParams (StkBuilderParams.spread_any (builderParams r) (Example.params ex))) >>
    addLog ("[EXAMPLE] Loaded " +:+ Example.name ex +:+ " into STK Builder.") SYS_LOG
  else if String.eqb (Example.type ex) "termux" then
    setState (set_activeTab termux) >>
    setState (set_educationalContent (Example.content ex)) >>
    addLog "[INFO] Displaying Non-Root configuration guide." SYS_LOG
  else skip.

Definition handleAnalysis (r : State) : Action :=
  if negb (truthy (trim (pduInput r))) then skip else
    setState (set_isAnalyzing true) >>
    setState (set_decodedPdu None) >>
    setState (set_currentAnalysis None) >>
    addLog ("pkg install sms-utils && python3 pdu_parse.py --hex "
            +:+ substring0 10 (pduInput r) +:+ "...") TERMUX_CMD >>
    addLog "[ANALYZING] Probing for protocol anomalies..." VULN_SCAN >>
    call (Analyze (pduInput r)) >> call (Decode (pduInput r)) >>
    suspend KAnalysis.

(** The rest of [handleAnalysis], once [Promise.all] has settled. *)
Definition handleAnalysis_settled (o : Outcome (AnalysisResult.t * DecodedPdu.t)) : Action :=
  match o with
  | Resolved (vulnResult, decodeResult) =>
      setState (set_currentAnalysis (Some vulnResult)) >>
      setState (set_decodedPdu (Some decodeResult)) >>
      addLog ("Scan complete. Risk: "
              +:+ RiskLevel_show (AnalysisResult.riskLevel vulnResult) +:+ ".") VULN_SCAN >>
      when (default false (AnalysisResult.isStkCommand vulnResult))
           (addLog ("DETECTED: Binary SMS targeting "
                    +:+ or_else (AnalysisResult.targetApp vulnResult) "SIM Application" +:+ ".")
                   SYS_LOG) >>
      addLog ("[DECODED] Bitstream parsed into "
              +:+ show_nat (List.length (DecodedPdu.components decodeResult)) +:+ " components.")
             SUCCESS
  | Rejected _ => addLog "ERR: Analysis failed." SYS_LOG
  end >>
  setState (set_isAnalyzing false).

Definition handleImportPdu (r : State) : Action :=
  if negb (truthy (trim (importPdu r))) then skip else
    setState (set_isAnalyzing true) >>
    addLog "[STK] Importing parameters from existing PDU hex..." SYS_LOG >>
    call (ImportParams (importPdu r)) >>
    suspend KImport.

Definition handleImportPdu_settled (o : Outcome ImportResult.t) : Action :=
  match o with
  | Resolved result =>
      setState (set_stkType (Some (ImportResult.stkType result))) >>
      setState (fun prev =>
                  set_builderParams
                    (StkBuilderParams.spread (builderParams prev) (ImportResult.params result)) prev) >>
      addLog "[STK] Form pre-filled from PDU data." SUCCESS
  | Rejected _ => addLog "[ERR] Failed to parse PDU for builder." SYS_LOG
  end >>
  setState (set_isAnalyzing false) >>
  setState (set_importPdu EmptyString).

Definition handleExecuteCommand (r : State) (cmdType : string) (isAuto : bool)
    (params : option StkBuilderParams.t) : Action :=
  setState (set_isAnalyzing true) >>
  when (negb isAuto)
       (addLog ("termux-sms-send -b -n [TARGET] " +:+ dq +:+ "STK_PAYLOAD_GEN" +:+ dq) TERMUX_CMD) >>
  addLog ("Generating invisible " +:+ show (stkType r) +:+ " "
          +:+ or_else (params ≫= StkBuilderParams.commandType) "EXECUTE" +:+ " COMMAND...")
         SYS_LOG >>
  call (GenerateCommand cmdType (stkType r) params) >>
  suspend (KExecute r cmdType isAuto params).

(** The rest of [handleExecuteCommand]. [isRunning] is the variable of the
    render the running handler belongs to. *)
Definition handleExecuteCommand_settled (r : State) (cmdType : string) (isAuto : bool)
    (params : option StkBuilderParams.t) (o : Outcome StkCommand.t) : Action :=
  match o with
  | Resolved info =>
      setState (set_stkCommand (Some info)) >>
      addLog ("STK payload ready: " +:+ StkCommand.name info) STK_GEN >>
      when (isRunning r || (negb isAuto && negb (bool_decide (is_Some params))))
           (setTimeout cmdType 2500%N)
  | Rejected _ => addLog ("Command generation failed for " +:+ cmdType +:+ ".") SYS_LOG
  end >>
  setState (set_isAnalyzing false).

(** The callback given to [setTimeout], up to its [await]. *)
Definition followUp (cmdType : string) : Action :=
  addLog "[INTERCEPT] Incoming silent recovery SMS from target..." SYS_LOG >>
  call (SimulateExfiltration cmdType) >>
  suspend (KFollowUp cmdType).

(** The rest of the callback. Nothing catches a rejection here. *)
Definition followUp_settled (o : Outcome (option string)) : Action :=
  match o with
  | Resolved mockData =>
      addLog ("RECOVERY_DATA: " +:+ show mockData) RECV_DATA >>
      addLog "[SYSTEM] Information exfiltrated back via silent SMS." SUCCESS
  | Rejected e => fun w => with_unhandled (unhandled w ++ [e]) w
  end.

(** The template string [intent] of [handleBuilderSubmit]. *)
Definition intent (b : StkBuilderParams.t) : string :=
  "Construct a " +:+ show (StkBuilderParams.commandType b)
  +:+ " command with text " +:+ dq +:+ show (StkBuilderParams.displayText b) +:+ dq
  +:+ ", target " +:+ dq +:+ show (StkBuilderParams.targetNumber b) +:+ dq
  +:+ ", data " +:+ dq +:+ show (StkBuilderParams.urlOrData b) +:+ dq
  +:+ ", and pin " +:+ dq +:+ show (StkBuilderParams.pinOrPassword b) +:+ dq.

Definition handleBuilderSubmit (r : State) : Action :=
  handleExecuteCommand r (intent (builderParams r)) false (Some (builderParams r)).

Definition stopSimulation : Action :=
  setState (set_isRunning false) >>
  (fun w =>
     match intervalRef w with
     | Some h => if Nat.eqb h 0 then w else with_intervalRef None (clearInterval h w)
     | None => w
     end) >>
  addLog "[SYSTEM] Simulation halted by operator." SYS_LOG.

(** The closure [runNext] of [startSimulation]: [index] is its variable,
    [r] the render [startSimulation] belongs to. Returns the new [index]. *)
Definition runNext (r : State) (index : nat) (w : World) : World * nat :=
  if List.length autoCommands <=? index then
    ((addLog "[SYSTEM] Extensive audit sequence completed." SUCCESS >> stopSimulation) w, index)
  else
    (handleExecuteCommand r (nth index autoCommands "undefined") true None w, S index).

Definition startSimulation (r : State) : Action := fun w =>
  let w1 := (setState (set_isRunning true) >>
             addLog "sh start_extensive_audit.sh" TERMUX_CMD >>
             addLog "[SYSTEM] Starting automated vulnerability research sequence (Non-Root)..."
                    SYS_LOG) w in
  let '(w2, index) := runNext r 0 w1 in
  let h := nextHandle w2 in
  with_intervalRef (Some h)
    (with_nextHandle (S h)
       (with_timers (<[h := Interval 8000%N (now w2 + 8000)%N index r]> (timers w2)) w2)).

Definition toggleSimulation (r : State) : Action :=
  if isRunning r then stopSimulation else startSimulation r.

Definition fetchEducation (topic : string) : Action :=
  setState (set_isAnalyzing true) >>
  addLog ("[INFO] Retrieving educational data for: " +:+ topic) SYS_LOG >>
  call (ExplainTopic topic) >>
  suspend KEducation.

Definition fetchEducation_settled (o : Outcome (option string)) : Action :=
  match o with
  | Resolved info => setState (set_educationalContent info)
  | Rejected _ => addLog "[ERR] Failed to fetch education module." SYS_LOG
  end >>
  setState (set_isAnalyzing false).

Definition clearHistory (r : State) : Action :=
  setState (set_history []) >>
  setState (set_currentAnalysis None) >>
  setState (set_decodedPdu None) >>
  setState (set_stkCommand None) >>
  setState (set_pduInput EmptyString) >>
  setState (set_educationalContent (Some EmptyString)) >>
  when (isRunning r) stopSimulation.

(** *** Events

    What the operator does, and what the environment does: a pending
    promise settles, a timer that is due fires, time passes. An operator
    event runs the handler of the latest render, whose variables are the
    committed state. *)

Inductive BuilderField : Type :=
| FCommandType | FDisplayText | FTargetNumber | FPinOrPassword | FUrlOrData.

(** [{...builderParams, field: v}] *)
Definition edit (f : BuilderField) (v : string) (b : StkBuilderParams.t) : StkBuilderParams.t :=
  StkBuilderParams.spread b
    match f with
    | FCommandType =>
        {| StkBuilderParams.displayText := None; StkBuilderParams.targetNumber := None;
           StkBuilderParams.urlOrData := None; StkBuilderParams.pinOrPassword := None;
           StkBuilderParams.commandType := Some v |}
    | FDisplayText =>
        {| StkBuilderParams.displayText := Some v; StkBuilderParams.targetNumber := None;
           StkBuilderParams.urlOrData := None; StkBuilderParams.pinOrPassword := None;
           StkBuilderParams.commandType := None |}
    | FTargetNumber =>
        {| StkBuilderParams.displayText := None; StkBuilderParams.targetNumber := Some v;
           StkBuilderParams.urlOrData := None; StkBuilderParams.pinOrPassword := None;
           StkBuilderParams.commandType := None |}
    | FPinOrPassword =>
        {| StkBuilderParams.displayText := None; StkBuilderParams.targetNumber := None;
           StkBuilderParams.urlOrData := None; StkBuilderParams.pinOrPassword := Some v;
           StkBuilderParams.commandType := None |}
    | FUrlOrData =>
        {| StkBuilderParams.displayText := None; StkBuilderParams.targetNumber := None;
           StkBuilderParams.urlOrData := Some v; StkBuilderParams.pinOrPassword := None;
           StkBuilderParams.commandType := None |}
    end.

(** The value a pending promise settles to, by the kind of its caller. *)
Inductive Settlement : Type :=
| SAnalysis (o : Outcome (AnalysisResult.t * DecodedPdu.t))
| SImport (o : Outcome ImportResult.t)
| SCommand (o : Outcome StkCommand.t)
| SText (o : Outcome (option string)).

Inductive Event : Type :=
| TypePduInput (v : string)
| TypeImportPdu (v : string)
| SelectStkType (v : string)
| EditBuilder (f : BuilderField) (v : string)
| ClickTab (t : Tab)
| ClickExec
| ClickMap
| SubmitBuilder
| ClickToggle
| ClickTopic (topic : string)
| ClickExample (i : nat)
| ClickReset
| ClickCloseApplet
| ClickReturn
| ClickNewAnalysis
| TermuxEnter (v : string)
| Settle (h : nat) (s : Settlement)
| Fire (h : nat)
| Elapse (d : N).

(** The statements after the [await] of a suspended function. *)
Definition resume (k : Continuation) (s : Settlement) : option Action :=
  match k, s with
  | KAnalysis, SAnalysis o => Some (handleAnalysis_settled o)
  | KImport, SImport o => Some (handleImportPdu_settled o)
  | KExecute r cmdType isAuto params, SCommand o =>
      Some (handleExecuteCommand_settled r cmdType isAuto params o)
  | KFollowUp _, SText o => Some (followUp_settled o)
  | KEducation, SText o => Some (fetchEducation_settled o)
  | _, _ => None
  end.

(** A due timer runs its callback. A repeating timer is armed again, one
    period after the callback has run, unless the callback cleared it. *)
Definition fire (h : nat) (t : Timer) : Action := fun w =>
  match t with
  | Timeout _ cmdType => followUp cmdType (with_timers (delete h (timers w)) w)
  | Interval period _ index r =>
      let '(w', index') := runNext r index w in
      match timers w' !! h with
      | Some _ => with_timers (<[h := Interval period (now w' + period)%N index' r]> (timers w')) w'
      | None => w'
      end
  end.

Definition step (e : Event) (w : World) : option World :=
  let r := st w in
  match e with
  | TypePduInput v => Some (setState (set_pduInput v) w)
  | TypeImportPdu v => Some (setState (set_importPdu v) w)
  | SelectStkType v => Some (setState (set_stkType (Some v)) w)
  | EditBuilder f v => Some (setState (set_builderParams (edit f v (builderParams r))) w)
  | ClickTab t => Some (setState (set_activeTab t) w)
  | ClickExec => Some (handleAnalysis r w)
  | ClickMap => Some (handleImportPdu r w)
  | SubmitBuilder => Some (handleBuilderSubmit r w)
  | ClickToggle => Some (toggleSimulation r w)
  | ClickTopic topic => Some (fetchEducation topic w)
  | ClickExample i =>
      match educationalExamples !! i with
      | Some ex => Some (applyExample r ex w)
      | None => None
      end
  | ClickReset => Some (clearHistory r w)
  | ClickCloseApplet => Some (setState (set_stkCommand None) w)
  | ClickReturn => Some (setState (set_educationalContent (Some EmptyString)) w)
  | ClickNewAnalysis => Some (setState (set_currentAnalysis None) w)
  | TermuxEnter v => Some (addLog v TERMUX_CMD w)
  | Settle h s =>
      match awaiting w !! h with
      | Some k =>
          match resume k s with
          | Some a => Some (a (with_awaiting (delete h (awaiting w)) w))
          | None => None
          end
      | None => None
      end
  | Fire h =>
      match timers w !! h with
      | Some t => if (due_time t <=? now w)%N then Some (fire h t w) else None
      | None => None
      end
  | Elapse d => Some (with_now (now w + d)%N w)
  end.

Fixpoint run (es : list Event) (w : World) : option World :=
  match es with
  | [] => Some w
  | e :: es' => match step e w with Some w' => run es' w' | None => None end
  end.

(** The first render, at time [t0]. Timer handles are positive. *)
Definition initialState : State :=
  {| activeTab := analyzer; pduInput := EmptyString; importPdu := EmptyString;
     stkType := Some "SAT_BROWSER";
     builderParams := {| StkBuilderParams.displayText := Some EmptyString;
                         StkBuilderParams.targetNumber := Some EmptyString;
                         StkBuilderParams.urlOrData := Some EmptyString;
                         StkBuilderParams.pinOrPassword := Some EmptyString;
                         StkBuilderParams.commandType := Some "DISPLAY TEXT" |};
     history := []; isAnalyzing := false; isRunning := false;
     currentAnalysis := None; decodedPdu := None; stkCommand := None;
     educationalContent := Some EmptyString |}.

Definition initialWorld (t0 : N) : World :=
  {| st := initialState; intervalRef := None; now := t0; timers := ∅; awaiting := ∅;
     issued := []; unhandled := []; nextHandle := 1; seed := 0 |}.

(** *** Observations and sample values *)

(** The log as the display shows it: category and text of every entry. *)
Definition lines (w : World) : list (LogType * string) :=
  map (fun i => (HistoryItem.type i, HistoryItem.content i)) (history (st w)).

(** The operations of the calls issued so far. *)
Definition ops (w : World) : list OracleOp := map op (issued w).

(** The calls for a scripted step: [getStkCommandInfo] without params. *)
Definition scripted (c : OracleCall) : bool :=
  match op c with GenerateCommand _ _ None => true | _ => false end.

Definition is_interval (t : Timer) : bool :=
  match t with Interval _ _ _ _ => true | Timeout _ _ => false end.

(** No repeating timer is armed. *)
Definition no_interval (w : World) : Prop :=
  forall h t, timers w !! h = Some t -> is_interval t = false.

(** The scripted calls issued after the first [n] calls. *)
Definition scripted_since (n : nat) (w : World) : list OracleCall :=
  List.filter scripted (drop n (issued w)).

(** The calls of the scripted steps that run the commands [cmds] at the
    times [times] in the environment [env]. *)
Definition calls_for (env : option string) (times : list N) (cmds : list string)
  : list OracleCall :=
  zip_with (fun t c => {| at_time := t; op := GenerateCommand c env None |}) times cmds.

(** Consecutive times are at least [gap] apart. *)
Fixpoint spaced (gap : N) (times : list N) : Prop :=
  match times with
  | t1 :: ((t2 :: _) as rest) => (t1 + gap <= t2)%N /\ spaced gap rest
  | _ => True
  end.

(** The events that neither start nor stop a scripted run. *)
Definition keeps_run (e : Event) : bool :=
  match e with ClickToggle | ClickReset => false | _ => true end.

(** The full scripted run with every tick on time: four ticks, the fourth
    of which finds the list exhausted. *)
Definition punctualRun : list Event :=
  [ClickToggle; Elapse 8000; Fire 2; Elapse 8000; Fire 2; Elapse 8000; Fire 2;
   Elapse 8000; Fire 2].

Definition samplePdu : string := "079144775810065011000A81100000000040".

Definition sampleAnalysis : AnalysisResult.t :=
  {| AnalysisResult.isSilent := true; AnalysisResult.explanation := "Type 0 message";
     AnalysisResult.riskLevel := Medium; AnalysisResult.mitigation := "Filter at the SMSC";
     AnalysisResult.isStkCommand := None; AnalysisResult.targetApp := None |}.

Definition sampleDecoded : DecodedPdu.t :=
  {| DecodedPdu.components :=
       [{| PduComponent.name := "PID"; PduComponent.value := "40";
           PduComponent.description := "Protocol identifier";
           PduComponent.isVulnerable := Some true |}] |}.

Definition sampleCommand : StkCommand.t :=
  {| StkCommand.name := "PROVIDE LOCAL INFO"; StkCommand.description := "Location request";
     StkCommand.payload := "D0098103012600820281"; StkCommand.impact := "Cell location leaves the device";
     StkCommand.stkType := Some "SAT_BROWSER" |}.

(** A session that shows an earlier analysis and has new input typed. *)
Definition worldWithResults : World :=
  with_st (set_pduInput samplePdu
             (set_importPdu samplePdu
                (set_currentAnalysis (Some sampleAnalysis)
                   (set_decodedPdu (Some sampleDecoded) initialState))))
          (initialWorld 1000).

(** The same session with an analysis submitted and not yet settled. *)
Definition worldInFlight : World := handleAnalysis (st worldWithResults) worldWithResults.


(** A session in which the operator has started the scripted run. *)
Definition worldRunning : World :=
  toggleSimulation (st worldWithResults) worldWithResults.

(** *** Invariants of the transition system *)

(** An action that preserves a property of the world. *)
Definition keeps (I : World -> Prop) (a : Action) : Prop := forall w, I w -> I (a w).

(** An action all of whose transitions lie in a relation. *)
Definition steps (R : World -> World -> Prop) (a : Action) : Prop := forall w, R w (a w).

(** The closure of a scripted step was created by a render in which no
    run was active. *)
Definition closure_ok (k : Continuation) : Prop :=
  match k with KExecute r _ true _ => isRunning r = false | _ => True end.

(** Every [runNext] in the timer table, and every scripted
    [handleExecuteCommand] that is suspended, belongs to a render whose
    [isRunning] is false. *)
Definition closures_not_running (w : World) : Prop :=
  (forall h p d i r, timers w !! h = Some (Interval p d i r) -> isRunning r = false)
  /\ (forall h r c params, awaiting w !! h = Some (KExecute r c true params) -> isRunning r = false).

(** A transition that leaves the scripted run alone: it neither starts
    nor stops it, arms or clears no repeating timer, and issues no call
    for a scripted step. *)
Record quiet (w w' : World) : Prop := {
  quiet_running : isRunning (st w') = isRunning (st w);
  quiet_ref : intervalRef w' = intervalRef w;
  quiet_handle : nextHandle w <= nextHandle w';
  quiet_now : (now w <= now w')%N;
  quiet_kept : forall h t, timers w !! h = Some t -> is_interval t = true -> h < nextHandle w ->
                           timers w' !! h = Some t;
  quiet_new : forall h t, timers w' !! h = Some t -> is_interval t = true ->
                          timers w !! h = Some t;
  quiet_issued : exists l, issued w' = issued w ++ l /\ List.filter scripted l = [];
  quiet_lines : forall x, x ∈ lines w -> x ∈ lines w'
}.

(** The world the punctual run ends in. *)
Definition worldAfterRun : World :=
  default worldWithResults (run punctualRun worldWithResults).

(** The scripted run just started, step 0 not yet answered. *)
Definition worldStarted : World := toggleSimulation initialState (initialWorld 1000).

End App.

(** ** What the component displays: the JSX of [App.tsx] and
       [components/TerminalOutput.tsx] *)

Module View.
Import Js App.

(** [s.includes(search)] *)
Fixpoint includes (search s : string) {struct s} : bool :=
  match s with
  | EmptyString => String.prefix search EmptyString
  | String _ r => String.prefix search s || includes search r
  end.

(** The [type] prop of [TerminalOutput]. *)
Inductive OutputType : Type := cmd | info | error | success | warn.

Definition colorMap (t : OutputType) : string :=
  match t with
  | cmd => "text-white"
  | info => "text-emerald-400"
  | error => "text-red-500"
  | success => "text-green-500"
  | warn => "text-yellow-400"
  end.

(** The [prefix] and [type] props [App] gives to the line of a log entry. *)
Definition outputPrefix (item : HistoryItem.t) : string :=
  match HistoryItem.type item with
  | TERMUX_CMD => "termux @ sim-lab: ~ $"
  | RECV_DATA => "<<< [RECV]"
  | _ => "$"
  end.

Definition outputType (item : HistoryItem.t) : OutputType :=
  match HistoryItem.type item with
  | TERMUX_CMD => cmd
  | SUCCESS => success
  | RECV_DATA => warn
  | _ =>
      if includes "ALERT" (HistoryItem.content item)
         || includes "WARNING" (HistoryItem.content item)
         || includes "DETECTED" (HistoryItem.content item)
      then warn else info
  end.

(** What the side panel shows: the current command if there is one, else
    the educational text if it is not empty, else the current analysis,
    else the topic buttons. *)
Inductive Panel : Type :=
| PayloadDetails (c : StkCommand.t)
| KnowledgeText (content : string)
| ScanResult (a : AnalysisResult.t)
| TopicButtons.

Definition panel (s : State) : Panel :=
  match stkCommand s with
  | Some c => PayloadDetails c
  | None =>
      if truthy (default EmptyString (educationalContent s))
      then KnowledgeText (default EmptyString (educationalContent s))
      else match currentAnalysis s with
           | Some a => ScanResult a
           | None => TopicButtons
           end
  end.

End View.

(** ** Further invariants and relations of the transition system *)

Module Invariants.
Import Js App.

(** The times of a list in non-decreasing order. *)
Fixpoint nondecreasing (times : list N) : Prop :=
  match times with
  | t1 :: ((t2 :: _) as rest) => (t1 <= t2)%N /\ nondecreasing rest
  | _ => True
  end.

(** The entries of the log carry non-decreasing timestamps, none of them
    ahead of the clock. *)
Definition log_in_order (w : World) : Prop :=
  nondecreasing (map HistoryItem.timestamp (history (st w)))
  /\ Forall (fun i => (HistoryItem.timestamp i <= now w)%N) (history (st w)).

(** A transition that takes no time and writes the log only by appending
    entries stamped with the current time; with [reset] it may empty the
    log first. *)
Record logs (reset : bool) (w w' : World) : Prop := {
  logs_now : now w' = now w;
  logs_items : exists items,
    Forall (fun i => HistoryItem.timestamp i = now w) items
    /\ (history (st w') = history (st w) ++ items
        \/ (reset = true /\ history (st w') = items))
}.

(** The repeating timer belongs to the run: every repeating timer in the
    table is the one [intervalRef] names; [intervalRef] names a live
    repeating timer with a positive handle; and it is set exactly while
    [isRunning] is true. *)
Record owned (w : World) : Prop := {
  owned_named : forall h t, timers w !! h = Some t -> is_interval t = true ->
                            intervalRef w = Some h;
  owned_live : forall h, intervalRef w = Some h ->
                         h <> 0 /\ h < nextHandle w
                         /\ exists t, timers w !! h = Some t /\ is_interval t = true;
  owned_running : isRunning (st w) = true <-> is_Some (intervalRef w);
  owned_handle : 0 < nextHandle w
}.

(** The event is the reset of the session. *)
Definition is_reset (e : Event) : bool :=
  match e with ClickReset => true | _ => false end.

(** The event is the passing of time. *)
Definition is_elapse (e : Event) : bool :=
  match e with Elapse _ => true | _ => false end.

(** The example passes one of the three tests of [applyExample]. *)
Definition applicable (ex : Example.t) : bool :=
  (String.eqb (Example.type ex) "analyzer" && truthy (default EmptyString (Example.pdu ex)))
  || (String.eqb (Example.type ex) "stk" && bool_decide (is_Some (Example.params ex)))
  || String.eqb (Example.type ex) "termux".

(** An entry of the catalog shape with a type [applyExample] does not
    know, and an analyzer entry without its [pdu]. *)
Definition unknownExample : Example.t :=
  {| Example.name := "Flash SMS"; Example.type := "flash";
     Example.description := "Class 0 message";
     Example.content := None; Example.pdu := Some samplePdu;
     Example.params := None; Example.stk := None |}.

(** Every pending request has a handle that was given out. *)
Definition fresh (w : World) : Prop :=
  forall h, is_Some (awaiting w !! h) -> h < nextHandle w.

(** A transition that gives up no pending request: handles only grow and
    a request that was pending is pending still. *)
Record pends (w w' : World) : Prop := {
  pends_handle : nextHandle w <= nextHandle w';
  pends_kept : forall h k, awaiting w !! h = Some k -> h < nextHandle w ->
                           awaiting w' !! h = Some k;
  pends_fresh : fresh w -> fresh w'
}.

(** The event is the settlement of the request [h]. *)
Definition settles (h : nat) (e : Event) : bool :=
  match e with Settle h' _ => Nat.eqb h' h | _ => false end.

(** An analysis result that names an STK command and no target. *)
Definition stkAnalysis : AnalysisResult.t :=
  {| AnalysisResult.isSilent := true; AnalysisResult.explanation := "Binary SMS to the SIM";
     AnalysisResult.riskLevel := Critical; AnalysisResult.mitigation := "Filter at the SMSC";
     AnalysisResult.isStkCommand := Some true; AnalysisResult.targetApp := None |}.

(** The analysis is in flight while an earlier command is displayed. *)
Definition worldInFlightWithCommand : World :=
  with_st (set_stkCommand (Some sampleCommand) (st worldInFlight)) worldInFlight.

(** A fresh session in which a topic has been requested. *)
Definition worldTopicPending : World := fetchEducation "Simjacker" (initialWorld 1000).

(** A fresh session in which the builder form was submitted and the
    scripted run started before the answer came. *)
Definition worldSubmittedThenStarted : World :=
  let w1 := handleBuilderSubmit initialState (initialWorld 1000) in
  toggleSimulation (st w1) w1.

(** The settlement is a rejection. *)
Definition rejection (s : Settlement) : bool :=
  match s with
  | SAnalysis (Rejected _) | SImport (Rejected _) | SCommand (Rejected _)
  | SText (Rejected _) => true
  | _ => false
  end.

(** The continuation belongs to one of the four handlers that set the
    in-flight flag. *)
Definition coordinated (k : Continuation) : bool :=
  match k with KFollowUp _ => false | _ => true end.

(** The state a failed request must not touch: everything the handlers
    write on success. *)
Definition results (s : State)
  : option AnalysisResult.t * option DecodedPdu.t * option StkCommand.t
    * StkBuilderParams.t * option string * option string :=
  (currentAnalysis s, decodedPdu s, stkCommand s, builderParams s, stkType s,
   educationalContent s).

(** The params an import can answer with: two fields, the others absent. *)
Definition sampleImport : StkBuilderParams.t :=
  {| StkBuilderParams.displayText := Some "Balance";
     StkBuilderParams.targetNumber := Some "+4477";
     StkBuilderParams.urlOrData := None;
     StkBuilderParams.pinOrPassword := None;
     StkBuilderParams.commandType := None |}.

(** The session after the punctual run, in a session that started empty. *)
Definition worldAfterPlainRun : World :=
  default (initialWorld 1000) (run punctualRun (initialWorld 1000)).

End Invariants.

(** ** The answers of the client at their declared types

  The client returns what [JSON.parse] made of the response; the
  component uses it at the type the service function declares. The
  readers below give the value of that type for a JSON value of the
  declared shape: a required member is present with its type, an optional
  one is absent or has its type, further members are ignored. A value
  outside the declared shape has no reading: it is not an input of the
  session model. *)

Module Answers.
Import Js GeminiService App.

(** A string without an escape sequence: its lexeme is its value. *)
Definition plain (s : string) : bool :=
  negb (existsb (Ascii.eqb (ascii_of_nat 92)) (list_ascii_of_string s)).

Definition as_bool (j : Json) : option bool :=
  match j with JBool b => Some b | _ => None end.

Definition as_string (j : Json) : option string :=
  match j with JString s => if plain s then Some s else None | _ => None end.

Definition as_riskLevel (j : Json) : option RiskLevel :=
  match as_string j with
  | Some s =>
      if String.eqb s "Low" then Some Low
      else if String.eqb s "Medium" then Some Medium
      else if String.eqb s "High" then Some High
      else if String.eqb s "Critical" then Some Critical
      else None
  | None => None
  end.

(** A member the interface marks with [?]: absent, or of its type. *)
Definition optional_member {A : Type} (read : Json -> option A) (o : option Json)
  : option (option A) :=
  match o with
  | None => Some None
  | Some j => match read j with Some a => Some (Some a) | None => None end
  end.

Definition AnalysisResult_of_json (j : Json) : option AnalysisResult.t :=
  match j with
  | JObject m =>
      isSilent ← get "isSilent" m ≫= as_bool;
      explanation ← get "explanation" m ≫= as_string;
      riskLevel ← get "riskLevel" m ≫= as_riskLevel;
      mitigation ← get "mitigation" m ≫= as_string;
      isStkCommand ← optional_member as_bool (get "isStkCommand" m);
      targetApp ← optional_member as_string (get "targetApp" m);
      Some {| AnalysisResult.isSilent := isSilent; AnalysisResult.explanation := explanation;
              AnalysisResult.riskLevel := riskLevel; AnalysisResult.mitigation := mitigation;
              AnalysisResult.isStkCommand := isStkCommand;
              AnalysisResult.targetApp := targetApp |}
  | _ => None
  end.

Definition PduComponent_of_json (j : Json) : option PduComponent.t :=
  match j with
  | JObject m =>
      name ← get "name" m ≫= as_string;
      value ← get "value" m ≫= as_string;
      description ← get "description" m ≫= as_string;
      isVulnerable ← optional_member as_bool (get "isVulnerable" m);
      Some {| PduComponent.name := name; PduComponent.value := value;
              PduComponent.description := description;
              PduComponent.isVulnerable := isVulnerable |}
  | _ => None
  end.

Definition DecodedPdu_of_json (j : Json) : option DecodedPdu.t :=
  match member "components" j with
  | Some (JArray elements) =>
      components ← mapM PduComponent_of_json elements;
      Some {| DecodedPdu.components := components |}
  | _ => None
  end.

Definition StkBuilderParams_of_json (j : Json) : option StkBuilderParams.t :=
  match j with
  | JObject m =>
      displayText ← optional_member as_string (get "displayText" m);
      targetNumber ← optional_member as_string (get "targetNumber" m);
      urlOrData ← optional_member as_string (get "urlOrData" m);
      pinOrPassword ← optional_member as_string (get "pinOrPassword" m);
      commandType ← optional_member as_string (get "commandType" m);
      Some {| StkBuilderParams.displayText := displayText;
              StkBuilderParams.targetNumber := targetNumber;
              StkBuilderParams.urlOrData := urlOrData;
              StkBuilderParams.pinOrPassword := pinOrPassword;
              StkBuilderParams.commandType := commandType |}
  | _ => None
  end.

Definition ImportResult_of_json (j : Json) : option ImportResult.t :=
  match j with
  | JObject m =>
      params ← get "params" m ≫= StkBuilderParams_of_json;
      stkType ← get "stkType" m ≫= as_string;
      Some {| ImportResult.params := params; ImportResult.stkType := stkType |}
  | _ => None
  end.

Definition StkCommand_of_json (j : Json) : option StkCommand.t :=
  match j with
  | JObject m =>
      name ← get "name" m ≫= as_string;
      description ← get "description" m ≫= as_string;
      payload ← get "payload" m ≫= as_string;
      impact ← get "impact" m ≫= as_string;
      stkType ← optional_member as_string (get "stkType" m);
      Some {| StkCommand.name := name; StkCommand.description := description;
              StkCommand.payload := payload; StkCommand.impact := impact;
              StkCommand.stkType := stkType |}
  | _ => None
  end.


Definition import_settlement (o : Outcome Json) : option Settlement :=
  match o with
  | Rejected e => Some (SImport (Rejected e))
  | Resolved j => result ← ImportResult_of_json j; Some (SImport (Resolved result))
  end.

Definition command_settlement (o : Outcome Json) : option Settlement :=
  match o with
  | Rejected e => Some (SCommand (Rejected e))
  | Resolved j => command ← StkCommand_of_json j; Some (SCommand (Resolved command))
  end.



End Answers.

(** ** The scripted run, tick by tick *)

Module Schedule.
Import Js App.

(** The log with its timestamps. *)
Definition stamped (w : World) : list (N * LogType * string) :=
  map (fun i => (HistoryItem.timestamp i, HistoryItem.type i, HistoryItem.content i))
      (history (st w)).

(** The event makes a repeating timer of [w] run its callback. *)
Definition is_tick (e : Event) (w : World) : bool :=
  match e with
  | Fire h => match timers w !! h with Some t => is_interval t | None => false end
  | _ => false
  end.

(** The times at which a repeating timer ticks while [es] runs from [w]. *)
Fixpoint tick_times (es : list Event) (w : World) : list N :=
  match es with
  | [] => []
  | e :: es' =>
      match step e w with
      | Some w' => (if is_tick e w then [now w] else []) ++ tick_times es' w'
      | None => []
      end
  end.

(** The time of the last tick, or of the start when there was none. *)
Definition last_time (t0 : N) (ticks : list N) : N := default t0 (last ticks).

(** The run started in [w0] is active in [w] after the ticks [ticks]:
    [isRunning] is true and [intervalRef] names the one repeating timer,
    which has the period 8000, is due 8000 ms after the last tick (or
    after the start) and holds the cursor of the next command and the
    render of the start. *)
Definition armed (w0 w : World) (ticks : list N) : Prop :=
  isRunning (st w) = true
  /\ exists h,
       h <> 0 /\ h < nextHandle w /\ intervalRef w = Some h
       /\ timers w !! h
          = Some (Interval 8000 (last_time (now w0) ticks + 8000)%N (S (List.length ticks))
                           (st w0))
       /\ (forall h' t, timers w !! h' = Some t -> is_interval t = true -> h' = h).

(** The run is over: the last tick logged the completion and then the
    halt notice of [stopSimulation], both at its own time; [isRunning] is
    false and no repeating timer is left. *)
Definition completed (w : World) (ticks : list N) : Prop :=
  isRunning (st w) = false /\ intervalRef w = None /\ no_interval w
  /\ exists t pre post,
       last ticks = Some t
       /\ stamped w
          = pre ++ [(t, SUCCESS, "[SYSTEM] Extensive audit sequence completed.");
                    (t, SYS_LOG, "[SYSTEM] Simulation halted by operator.")] ++ post.

(** Where a run started in [w0] stands in [w] when its repeating timer has
    ticked at the times [ticks]. *)
Record on_schedule (w0 w : World) (ticks : list N) : Prop := {
  os_ticks : List.length ticks <= List.length autoCommands;
  os_started :
    exists post,
      stamped w
      = stamped w0
        ++ [(now w0, TERMUX_CMD, "sh start_extensive_audit.sh");
            (now w0, SYS_LOG,
             "[SYSTEM] Starting automated vulnerability research sequence (Non-Root)...")]
        ++ post;
  os_calls : scripted_since (List.length (issued w0)) w
             = calls_for (stkType (st w0)) (now w0 :: ticks) autoCommands;
  os_issued : List.length (issued w0) <= List.length (issued w);
  os_spaced : spaced 8000 (now w0 :: ticks);
  os_phase : if List.length ticks <? List.length autoCommands
             then armed w0 w ticks else completed w ticks
}.

End Schedule.

(** * Properties of the oracle client *)

Module ClientSpec.
Import Js GeminiService.

Section Fallbacks.

Variable JSON_parse : string -> option Json.

Lemma parse_text_fails response :
  fails_to_parse JSON_parse response ->
  exists e, parse_text JSON_parse response = Rejected e.
Proof.
  unfold fails_to_parse, parse_text.
  destruct (text response) as [t|]; [intros -> |]; eauto.
Qed.

Lemma parse_or_fallback fallback response :
  fails_to_parse JSON_parse response ->
  parse_or JSON_parse fallback (Resolved response) = Resolved fallback.
Proof.
  intros H. destruct (parse_text_fails response H) as [e He].
  unfold parse_or. now rewrite He.
Qed.

(** Text that is JSON is returned as [JSON.parse] gave it: none of the
    three guarded functions looks at the value. *)
Lemma parse_or_passes_through fallback t v :
  JSON_parse (trim t) = Some v ->
  parse_or JSON_parse fallback (Resolved {| text := Some t |}) = Resolved v.
Proof. intros H. unfold parse_or, parse_text. simpl. now rewrite H. Qed.

(** A rejection of the remote call itself is outside the [try]. *)
Lemma parse_or_transport_error fallback e :
  parse_or JSON_parse fallback (Rejected e) = Rejected e.
Proof. reflexivity. Qed.

End Fallbacks.

(** C3, as amended. When the response has no text, or a text that is not
    JSON, [analyzePduVulnerability] resolves to the fixed fallback
    [{isSilent: false, explanation: "Failed to parse analysis results.",
    riskLevel: "Low", mitigation: "Ensure the PDU string is valid hex
    format."}]; it does not reject. *)
Theorem analyzePduVulnerability_fallback
    (JSON_parse : string -> option Json) (pdu : string) (response : GenerateContentResponse) :
  fails_to_parse JSON_parse response ->
  analyzePduVulnerability JSON_parse pdu (Resolved response)
  = Resolved (JObject [("isSilent", JBool false);
                       ("explanation", JString "Failed to parse analysis results.");
                       ("riskLevel", JString "Low");
                       ("mitigation", JString "Ensure the PDU string is valid hex format.")]).
Proof. intros H. unfold analyzePduVulnerability. now rewrite parse_or_fallback. Qed.

Lemma analyzePduVulnerability_fallback_witness :
  fails_to_parse JsonText.parse {| text := Some "not json" |}
  /\ analyzePduVulnerability JsonText.parse "079144775810065011000A81100000000040"
       (Resolved {| text := Some "not json" |})
     = Resolved analysis_fallback.
Proof.
  split; [vm_compute; reflexivity |].
  apply (analyzePduVulnerability_fallback JsonText.parse
           "079144775810065011000A81100000000040" {| text := Some "not json" |}).
  vm_compute. reflexivity.
Defined.

(** C3, as stated, fails. The response text [{}] is JSON, so nothing is
    caught; the value returned is the empty object, which has none of the
    members of an [AnalysisResult] and is not the fallback. *)
Lemma analyzePduVulnerability_unchecked_shape :
  let response := {| text := Some "{}" |} in
  JsonText.parse (trim "{}") = Some (JObject [])
  /\ has_AnalysisResult_shape (JObject []) = false
  /\ analyzePduVulnerability JsonText.parse "079144775810065011000A81100000000040"
       (Resolved response) = Resolved (JObject [])
  /\ JObject [] <> analysis_fallback.
Proof. vm_compute. repeat split; discriminate. Qed.

(** C4. When the response to [decodePdu] fails to parse, the function
    resolves to [{components: []}]: it neither rejects nor gives [null]. *)
Theorem decodePdu_fallback
    (JSON_parse : string -> option Json) (pdu : string) (response : GenerateContentResponse) :
  fails_to_parse JSON_parse response ->
  decodePdu JSON_parse pdu (Resolved response) = Resolved (JObject [("components", JArray [])])
  /\ JObject [("components", JArray [])] <> JNull.
Proof.
  intros H. split; [| discriminate].
  unfold decodePdu. now rewrite parse_or_fallback.
Qed.

Lemma decodePdu_fallback_witness :
  fails_to_parse JsonText.parse {| text := Some "{ components: [" |}
  /\ decodePdu JsonText.parse "0791" (Resolved {| text := Some "{ components: [" |})
     = Resolved decode_fallback.
Proof.
  split; [vm_compute; reflexivity |].
  apply (decodePdu_fallback JsonText.parse "0791" {| text := Some "{ components: [" |}).
  vm_compute. reflexivity.
Defined.

(** C5, as stated, fails: the default's [commandType] is ["DISPLAY TEXT"],
    not the empty string. *)
Lemma importStkParamsFromPdu_default_commandType :
  let response := {| text := Some "not json" |} in
  fails_to_parse JsonText.parse response
  /\ importStkParamsFromPdu JsonText.parse "0791" (Resolved response) <> Resolved all_empty_default
  /\ (exists v, importStkParamsFromPdu JsonText.parse "0791" (Resolved response) = Resolved v
                /\ member "params" v ≫= member "commandType" = Some (JString "DISPLAY TEXT")).
Proof.
  vm_compute. split; [reflexivity |]. split; [discriminate |].
  eexists. split; reflexivity.
Qed.

(** C5, as amended. When the response to [importStkParamsFromPdu] fails to
    parse, the function resolves to [stkType] [SAT_BROWSER] and params
    whose [commandType] is ["DISPLAY TEXT"] and whose other four fields are
    empty strings. *)
Theorem importStkParamsFromPdu_fallback
    (JSON_parse : string -> option Json) (pdu : string) (response : GenerateContentResponse) :
  fails_to_parse JSON_parse response ->
  importStkParamsFromPdu JSON_parse pdu (Resolved response)
  = Resolved (JObject [("stkType", JString "SAT_BROWSER");
                       ("params", JObject [("commandType", JString "DISPLAY TEXT");
                                           ("displayText", JString EmptyString);
                                           ("targetNumber", JString EmptyString);
                                           ("urlOrData", JString EmptyString);
                                           ("pinOrPassword", JString EmptyString)])]).
Proof. intros H. unfold importStkParamsFromPdu. now rewrite parse_or_fallback. Qed.

Lemma importStkParamsFromPdu_fallback_witness :
  fails_to_parse JsonText.parse {| text := None |}
  /\ importStkParamsFromPdu JsonText.parse "0791" (Resolved {| text := None |})
     = Resolved import_fallback.
Proof.
  split; [exact I |].
  apply (importStkParamsFromPdu_fallback JsonText.parse "0791" {| text := None |}).
  exact I.
Defined.


End ClientSpec.

(** * Properties of the session orchestrator *)

Module SessionSpec.
Import Js App.

Create HintDb handlers.

#[local] Hint Unfold
  seq skip when setState addLog call suspend setTimeout clearInterval
  applyExample handleAnalysis handleAnalysis_settled handleImportPdu handleImportPdu_settled
  handleExecuteCommand handleExecuteCommand_settled followUp followUp_settled
  handleBuilderSubmit stopSimulation runNext startSimulation toggleSimulation
  fetchEducation fetchEducation_settled clearHistory lines ops : handlers.

(** Splits a world into its fields and runs the handlers on them, so that
    every projection computes. *)
Ltac fields w :=
  let s := fresh "s" in
  autounfold with handlers in *;
  destruct w as [s ? ? ? ? ? ? ? ?]; destruct s; cbn in *.

(** C9. Whatever the builder params hold, applying the "Simjacker
    Location" example selects the builder view, sets the environment to
    [SAT_BROWSER], writes the example's [commandType], [displayText] and
    [urlOrData] into the params and leaves [pinOrPassword] and
    [targetNumber], which the example does not have, as they were. *)
Theorem applyExample_simjacker (w : World) :
  exists w',
    educationalExamples !! 2 = Some simjackerLocation
    /\ step (ClickExample 2) w = Some w'
    /\ activeTab (st w') = stk
    /\ stkType (st w') = Some "SAT_BROWSER"
    /\ StkBuilderParams.commandType (builderParams (st w')) = Some "PROVIDE LOCAL INFO"
    /\ StkBuilderParams.displayText (builderParams (st w')) = Some "Get Location"
    /\ StkBuilderParams.urlOrData (builderParams (st w')) = Some "MCC/MNC/LAC/CellID"
    /\ StkBuilderParams.pinOrPassword (builderParams (st w'))
       = StkBuilderParams.pinOrPassword (builderParams (st w))
    /\ StkBuilderParams.targetNumber (builderParams (st w'))
       = StkBuilderParams.targetNumber (builderParams (st w)).
Proof. eexists. split; [reflexivity |]. split; [reflexivity |]. fields w. repeat split. Qed.

(** C2, as stated, fails. Resetting a session whose scripted run is active
    leaves one entry in the log, the halt notice written by
    [stopSimulation]; the import buffer keeps its text and the in-flight
    flag stays set. *)
Lemma clearHistory_not_a_full_reset :
  isRunning (st worldRunning) = true
  /\ exists w',
       step ClickReset worldRunning = Some w'
       /\ lines w' = [(SYS_LOG, "[SYSTEM] Simulation halted by operator.")]
       /\ importPdu (st w') = samplePdu
       /\ isAnalyzing (st w') = true.
Proof. split; [reflexivity |]. eexists. split; [reflexivity |]. vm_compute. repeat split. Qed.

(** C2, as amended. One transition of [clearHistory] leaves no current
    analysis, decoded PDU or command, an empty analyzer input and an empty
    educational text, and [isRunning] false. When no scripted run was
    active the log is empty; when one was, it was stopped: its timer is
    cleared and the log holds exactly the halt notice. The import buffer,
    the builder params, the environment, the view and the in-flight flag
    keep their values, and so do pending requests and one-shot timers. *)
Theorem clearHistory_resets (w : World) :
  exists w',
    step ClickReset w = Some w'
    /\ currentAnalysis (st w') = None /\ decodedPdu (st w') = None /\ stkCommand (st w') = None
    /\ pduInput (st w') = EmptyString /\ educationalContent (st w') = Some EmptyString
    /\ isRunning (st w') = false
    /\ lines w' = (if isRunning (st w)
                   then [(SYS_LOG, "[SYSTEM] Simulation halted by operator.")] else [])
    /\ timers w' = (if isRunning (st w)
                    then match intervalRef w with
                         | Some (S h) => delete (S h) (timers w)
                         | _ => timers w
                         end
                    else timers w)
    /\ intervalRef w' = (if isRunning (st w)
                         then match intervalRef w with Some (S h) => None | r => r end
                         else intervalRef w)
    /\ importPdu (st w') = importPdu (st w) /\ builderParams (st w') = builderParams (st w)
    /\ stkType (st w') = stkType (st w) /\ activeTab (st w') = activeTab (st w)
    /\ isAnalyzing (st w') = isAnalyzing (st w)
    /\ awaiting w' = awaiting w /\ issued w' = issued w.
Proof.
  eexists. split; [reflexivity |]. fields w.
  destruct isRunning0; [destruct intervalRef0 as [[|h]|] |]; cbn; repeat split.
Qed.

(** C10. Submitting an analysis with non-blank input clears the current
    analysis and the decoded PDU at once, while the two requests are
    pending; if the pair then fails (either request rejects) both stay
    absent, and the failure adds one line to the log. *)
Theorem handleAnalysis_clears_results (w : World) :
  truthy (trim (pduInput (st w))) = true ->
  exists w1,
    step ClickExec w = Some w1
    /\ currentAnalysis (st w1) = None /\ decodedPdu (st w1) = None
    /\ isAnalyzing (st w1) = true
    /\ ops w1 = ops w ++ [Analyze (pduInput (st w)); Decode (pduInput (st w))]
    /\ awaiting w1 !! nextHandle w = Some KAnalysis
    /\ forall (a : Outcome AnalysisResult.t) (d : Outcome DecodedPdu.t) (e : string),
         Promise_all a d = Rejected e ->
         exists w2,
           step (Settle (nextHandle w) (SAnalysis (Promise_all a d))) w1 = Some w2
           /\ currentAnalysis (st w2) = None /\ decodedPdu (st w2) = None
           /\ lines w2 = lines w1 ++ [(SYS_LOG, "ERR: Analysis failed.")].
Proof.
  intros H. eexists. split; [reflexivity |].
  unfold handleAnalysis. rewrite H. fields w.
  repeat split.
  - rewrite !map_app. cbn. now rewrite <- app_assoc.
  - apply lookup_insert_eq.
  - intros a d e He. rewrite He, lookup_insert_eq. cbn.
    eexists. split; [reflexivity |]. cbn. repeat split.
    now rewrite !map_app.
Qed.

Lemma handleAnalysis_clears_results_witness :
  truthy (trim (pduInput (st worldWithResults))) = true
  /\ currentAnalysis (st worldWithResults) = Some sampleAnalysis
  /\ exists w1,
       step ClickExec worldWithResults = Some w1
       /\ currentAnalysis (st w1) = None /\ decodedPdu (st w1) = None.
Proof.
  split; [reflexivity |]. split; [reflexivity |].
  destruct (handleAnalysis_clears_results worldWithResults) as (w1 & H1 & H2 & H3 & _);
    [reflexivity |].
  exists w1. repeat split; assumption.
Defined.






(** ** The follow-up of a command *)

(** What [handleExecuteCommand] does when its command has been generated:
    the follow-up is scheduled 2500 ms ahead when the [isRunning] of the
    handler's own render is true, or the call is interactive and has no
    params; otherwise no timer is added. *)
Lemma follow_up_condition (w : World) (h : nat) (r : State) (cmdType : string) (isAuto : bool)
    (params : option StkBuilderParams.t) (info : StkCommand.t) :
  awaiting w !! h = Some (KExecute r cmdType isAuto params) ->
  exists w',
    step (Settle h (SCommand (Resolved info))) w = Some w'
    /\ stkCommand (st w') = Some info
    /\ timers w' = (if isRunning r || (negb isAuto && negb (bool_decide (is_Some params)))
                    then <[nextHandle w := Timeout (now w + 2500)%N cmdType]> (timers w)
                    else timers w).
Proof.
  intros Hk. unfold step. rewrite Hk. cbn. clear Hk.
  eexists. split; [reflexivity |]. fields w. destruct (_ || _); split; reflexivity.
Qed.

(** A scheduled follow-up is not cancelled by a reset or by stopping the
    scripted run, and fires once it is due: it writes its first line and
    calls [simulateExfiltratedData]. *)
Lemma follow_up_is_fire_and_forget (w : World) (h : nat) (due : N) (cmdType : string) :
  timers w !! h = Some (Timeout due cmdType) ->
  intervalRef w <> Some h ->
  (exists w', step ClickReset w = Some w' /\ timers w' !! h = Some (Timeout due cmdType))
  /\ timers (stopSimulation w) !! h = Some (Timeout due cmdType)
  /\ ((due <= now w)%N ->
      exists w', step (Fire h) w = Some w'
                 /\ lines w' = lines w ++ [(SYS_LOG, "[INTERCEPT] Incoming silent recovery SMS from target...")]
                 /\ ops w' = ops w ++ [SimulateExfiltration cmdType]
                 /\ awaiting w' !! nextHandle w = Some (KFollowUp cmdType)).
Proof.
  intros Ht Href. split; [| split].
  - eexists. split; [reflexivity |]. fields w.
    destruct isRunning0; [destruct intervalRef0 as [[|h']|] |]; cbn; try assumption.
    rewrite lookup_delete_ne; [assumption | congruence].
  - fields w. destruct intervalRef0 as [[|h']|]; cbn; try assumption.
    rewrite lookup_delete_ne; [assumption | congruence].
  - intros Hdue. unfold step. rewrite Ht. cbn.
    apply N.leb_le in Hdue. rewrite Hdue.
    eexists. split; [reflexivity |]. clear Ht Href. fields w.
    rewrite !map_app. repeat split. apply lookup_insert_eq.
Qed.

(** The follow-up once [simulateExfiltratedData] has answered: two more
    lines. A rejection is caught by nobody and writes nothing. *)
Lemma follow_up_completion (w : World) (h : nat) (cmdType : string) :
  awaiting w !! h = Some (KFollowUp cmdType) ->
  (forall mockData, exists w',
      step (Settle h (SText (Resolved mockData))) w = Some w'
      /\ lines w' = lines w ++ [(RECV_DATA, "RECOVERY_DATA: " +:+ show mockData);
                                (SUCCESS, "[SYSTEM] Information exfiltrated back via silent SMS.")])
  /\ (forall e, exists w',
        step (Settle h (SText (Rejected e))) w = Some w'
        /\ lines w' = lines w /\ unhandled w' = unhandled w ++ [e]).
Proof.
  intros Hk. split; intros x; unfold step; rewrite Hk; cbn;
    (eexists; split; [reflexivity |]); clear Hk; fields w.
  - rewrite !map_app. cbn. now rewrite <- app_assoc.
  - split; reflexivity.
Qed.

(** ** Stale closures

    [startSimulation] runs in a render whose [isRunning] is false, and the
    [runNext] it gives to [setInterval] keeps calling the
    [handleExecuteCommand] of that render. *)

(** How [keeps] goes through the control structure of a handler. *)
Section Keeps.

Variable I : World -> Prop.

Lemma keeps_skip : keeps I skip.
Proof. intros w H. exact H. Qed.

Lemma keeps_seq a b : keeps I a -> keeps I b -> keeps I (a >> b).
Proof. intros Ha Hb w H. apply Hb, Ha, H. Qed.

Lemma keeps_when c a : keeps I a -> keeps I (when c a).
Proof. intros Ha. destruct c; [exact Ha | apply keeps_skip]. Qed.

Lemma keeps_if (c : bool) a b : keeps I a -> keeps I b -> keeps I (if c then a else b).
Proof. now destruct c. Qed.

End Keeps.

Ltac lookups :=
  repeat match goal with
  | H : <[_:=_]> _ !! _ = Some _ |- _ => apply lookup_insert_Some in H as [[? ?]|[? ?]]
  | H : delete _ _ !! _ = Some _ |- _ => apply lookup_delete_Some in H as [? ?]
  end; simplify_eq.

(** The statements a handler is made of keep [closures_not_running]; a
    suspension does when the closure it stores is [closure_ok]. *)
Lemma cnr_setState f : keeps closures_not_running (setState f).
Proof. intros w H. exact H. Qed.

Lemma cnr_addLog c t : keeps closures_not_running (addLog c t).
Proof. intros w H. exact H. Qed.

Lemma cnr_call o : keeps closures_not_running (call o).
Proof. intros w H. exact H. Qed.

Lemma cnr_suspend k : closure_ok k -> keeps closures_not_running (suspend k).
Proof.
  intros Hk w [HT HK]. split; [exact HT |].
  intros h r c params H. cbn in H. lookups; eauto.
Qed.

Lemma cnr_setTimeout c d : keeps closures_not_running (setTimeout c d).
Proof.
  intros w [HT HK]. split; [| exact HK].
  intros h p d' i r H. cbn in H. lookups; eauto.
Qed.

Lemma cnr_clearInterval h : keeps closures_not_running (clearInterval h).
Proof.
  intros w [HT HK]. split; [| exact HK].
  intros h' p d' i r H. cbn in H. lookups; eauto.
Qed.

Create HintDb cnr.
#[local] Hint Resolve keeps_skip keeps_seq keeps_when keeps_if cnr_setState cnr_addLog cnr_call cnr_suspend
  cnr_setTimeout cnr_clearInterval : cnr.

Ltac split_action :=
  repeat match goal with
  | |- keeps _ (_ >> _) => apply keeps_seq
  | |- keeps _ skip => apply keeps_skip
  | |- keeps _ (when _ _) => apply keeps_when
  | |- keeps _ (match ?o with _ => _ end) => destruct o
  end.

Ltac cnr := split_action; auto with cnr.

Lemma cnr_stopSimulation : keeps closures_not_running stopSimulation.
Proof.
  unfold stopSimulation. cnr. intros w H. destruct (intervalRef w) as [h|]; [| exact H].
  destruct (Nat.eqb h 0); [exact H |]. now apply cnr_clearInterval.
Qed.

Lemma cnr_handleExecuteCommand r c isAuto params :
  (isAuto = true -> isRunning r = false) ->
  keeps closures_not_running (handleExecuteCommand r c isAuto params).
Proof.
  intros H. unfold handleExecuteCommand. cnr.
  apply cnr_suspend. destruct isAuto; cbn; auto.
Qed.

#[local] Hint Resolve cnr_stopSimulation cnr_handleExecuteCommand : cnr.

Lemma cnr_resume k s a :
  closure_ok k -> resume k s = Some a -> keeps closures_not_running a.
Proof.
  intros Hk Hr. destruct k, s; cbn in Hr; try discriminate; injection Hr as <-.
  - unfold handleAnalysis_settled. cnr.
  - unfold handleImportPdu_settled. cnr.
  - unfold handleExecuteCommand_settled. cnr.
  - unfold followUp_settled. cnr. intros w H. exact H.
  - unfold fetchEducation_settled. cnr.
Qed.

Lemma cnr_runNext r i w :
  isRunning r = false -> closures_not_running w -> closures_not_running (runNext r i w).1.
Proof.
  intros Hr H. unfold runNext. destruct (Nat.leb _ _); cbn.
  - revert w H. change (keeps closures_not_running
      (addLog "[SYSTEM] Extensive audit sequence completed." SUCCESS >> stopSimulation)). cnr.
  - apply cnr_handleExecuteCommand; auto.
Qed.

Lemma cnr_handleAnalysis r : keeps closures_not_running (handleAnalysis r).
Proof. unfold handleAnalysis. cnr. apply cnr_suspend. exact I. Qed.

Lemma cnr_handleImportPdu r : keeps closures_not_running (handleImportPdu r).
Proof. unfold handleImportPdu. cnr. apply cnr_suspend. exact I. Qed.

Lemma cnr_fetchEducation topic : keeps closures_not_running (fetchEducation topic).
Proof. unfold fetchEducation. cnr. apply cnr_suspend. exact I. Qed.

Lemma cnr_applyExample r ex : keeps closures_not_running (applyExample r ex).
Proof. unfold applyExample. cnr. Qed.

Lemma cnr_clearHistory r : keeps closures_not_running (clearHistory r).
Proof. unfold clearHistory. cnr. Qed.

Lemma cnr_startSimulation r :
  isRunning r = false -> keeps closures_not_running (startSimulation r).
Proof.
  intros Hr w H. unfold startSimulation.
  set (w1 := (_ >> _) w).
  assert (H1 : closures_not_running w1) by (revert w H w1; cbv zeta;
    match goal with |- forall w, _ -> closures_not_running (?a w) =>
      change (keeps closures_not_running a) end; cnr).
  pose proof (cnr_runNext r 0 w1 Hr H1) as H2.
  destruct (runNext r 0 w1) as [w2 index]. cbn in *.
  destruct H2 as [HT HK]. split; [| exact HK].
  intros h p d i r' Hl. cbn in Hl. lookups; eauto.
Qed.

Lemma cnr_fire h t w :
  timers w !! h = Some t -> closures_not_running w -> closures_not_running (fire h t w).
Proof.
  intros Ht H. destruct t as [p d i r | d c]; cbn.
  - assert (Hr : isRunning r = false) by (destruct H as [HT _]; eauto).
    pose proof (cnr_runNext r i w Hr H) as H2.
    destruct (runNext r i w) as [w2 index]. cbn in *.
    destruct (timers w2 !! h); [| exact H2].
    destruct H2 as [HT HK]. split; [| exact HK].
    intros h' p' d' i' r' Hl. cbn in Hl. lookups; eauto.
  - assert (Hf : keeps closures_not_running (followUp c))
      by (unfold followUp; cnr; apply cnr_suspend; exact I).
    apply Hf.
    destruct H as [HT HK]. split; [| exact HK].
    intros h' p' d' i' r' Hl. cbn in Hl. lookups; eauto.
Qed.

(** Every transition keeps the invariant. *)
Lemma closures_not_running_step e w w' :
  closures_not_running w -> step e w = Some w' -> closures_not_running w'.
Proof.
  intros H Hstep.
  destruct e; cbn in Hstep; try (injection Hstep as <-).
  - exact H.
  - exact H.
  - exact H.
  - exact H.
  - exact H.
  - now apply cnr_handleAnalysis.
  - now apply cnr_handleImportPdu.
  - unfold handleBuilderSubmit. apply cnr_handleExecuteCommand; [discriminate | exact H].
  - unfold toggleSimulation. destruct (isRunning (st w)) eqn:Hr.
    + now apply cnr_stopSimulation.
    + now apply cnr_startSimulation.
  - now apply cnr_fetchEducation.
  - destruct (educationalExamples !! i); [| discriminate]. injection Hstep as <-.
    now apply cnr_applyExample.
  - now apply cnr_clearHistory.
  - exact H.
  - exact H.
  - exact H.
  - exact H.
  - destruct (awaiting w !! h) as [k|] eqn:Hk; [| discriminate].
    destruct (resume k s) as [a|] eqn:Ha; [| discriminate]. injection Hstep as <-.
    assert (closure_ok k).
    { destruct k as [| |r c [] p| |]; cbn; auto. destruct H as [_ HK]. eauto. }
    apply (cnr_resume k s a); auto.
    destruct H as [HT HK]. split; [exact HT |].
    intros h' r c p Hl. cbn in Hl. lookups; eauto.
  - destruct (timers w !! h) as [t|] eqn:Ht; [| discriminate].
    destruct (N.leb _ _); [| discriminate]. injection Hstep as <-.
    now apply cnr_fire.
  - exact H.
Qed.

Lemma closures_not_running_initial t0 : closures_not_running (initialWorld t0).
Proof. split; intros *; cbn; rewrite lookup_empty; discriminate. Qed.

(** In every world the session can reach, the scripted steps belong to a
    render in which no run was active. *)
Lemma closures_not_running_run es w w' :
  closures_not_running w -> run es w = Some w' -> closures_not_running w'.
Proof.
  revert w. induction es as [|e es IH]; intros w H Hrun; cbn in Hrun.
  - now injection Hrun as <-.
  - destruct (step e w) as [w1|] eqn:Hstep; [| discriminate].
    exact (IH w1 (closures_not_running_step e w w1 H Hstep) Hrun).
Qed.

(** So no scripted step ever schedules a follow-up: when its command has
    been generated the timer table is left as it was, whether or not the
    run is still active. *)
Lemma scripted_steps_never_follow_up (t0 : N) (es : list Event) (w : World) (h : nat)
    (r : State) (cmdType : string) (params : option StkBuilderParams.t) (info : StkCommand.t) :
  run es (initialWorld t0) = Some w ->
  awaiting w !! h = Some (KExecute r cmdType true params) ->
  exists w', step (Settle h (SCommand (Resolved info))) w = Some w'
             /\ stkCommand (st w') = Some info
             /\ timers w' = timers w.
Proof.
  intros Hrun Hk.
  destruct (closures_not_running_run es _ w (closures_not_running_initial t0) Hrun) as [_ HK].
  pose proof (HK h r cmdType params Hk) as Hr.
  destruct (follow_up_condition w h r cmdType true params info Hk) as (w' & H1 & H2 & H3).
  exists w'. rewrite Hr in H3. cbn in H3. auto.
Qed.

(** C8. The operator starts the scripted run in a fresh session and the
    oracle answers step 0 with a command. The run is active and the
    command is stored, yet the timer table holds the repeating timer only:
    no follow-up has been scheduled for the step. *)
Theorem scripted_step_schedules_no_follow_up :
  step ClickToggle (initialWorld 1000) = Some worldStarted
  /\ isRunning (st worldStarted) = true
  /\ awaiting worldStarted !! 1 = Some (KExecute initialState "Get Location" true None)
  /\ exists w',
       step (Settle 1 (SCommand (Resolved sampleCommand))) worldStarted = Some w'
       /\ isRunning (st w') = true
       /\ stkCommand (st w') = Some sampleCommand
       /\ map_to_list (timers w') = [(2, Interval 8000 9000 1 initialState)].
Proof.
  split; [reflexivity |]. split; [reflexivity |]. split; [reflexivity |].
  eexists. split; [reflexivity |]. vm_compute. repeat split.
Qed.

(** ** The schedule of a scripted run *)

(** A timer that is due fires. *)
Lemma due_timer_fires (w : World) (h : nat) (t : Timer) :
  timers w !! h = Some t -> (due_time t <= now w)%N ->
  step (Fire h) w = Some (fire h t w).
Proof. intros Ht Hd. cbn. rewrite Ht. apply N.leb_le in Hd. now rewrite Hd. Qed.

(** [quiet] is a preorder, and the statements of the quiet handlers lie in
    it. *)
Lemma quiet_refl w : quiet w w.
Proof.
  constructor; auto; try lia. exists []. split; [symmetry; apply app_nil_r | reflexivity].
Qed.

Lemma quiet_trans w1 w2 w3 : quiet w1 w2 -> quiet w2 w3 -> quiet w1 w3.
Proof.
  intros [A1 A2 A3 A4 A5 A6 (l1 & A7 & A7') A8] [B1 B2 B3 B4 B5 B6 (l2 & B7 & B7') B8].
  constructor.
  - congruence.
  - congruence.
  - lia.
  - lia.
  - intros h t H Hi Hh. apply B5; auto. lia.
  - auto.
  - exists (l1 ++ l2). split.
    + rewrite B7, A7. now rewrite app_assoc.
    + rewrite List.filter_app, A7', B7'. reflexivity.
  - auto.
Qed.

Lemma steps_skip : steps quiet skip.
Proof. intros w. apply quiet_refl. Qed.

Lemma steps_seq a b : steps quiet a -> steps quiet b -> steps quiet (a >> b).
Proof. intros Ha Hb w. exact (quiet_trans _ _ _ (Ha w) (Hb (a w))). Qed.

Lemma steps_when c a : steps quiet a -> steps quiet (when c a).
Proof. intros Ha. destruct c; [exact Ha | apply steps_skip]. Qed.

Lemma quiet_setState f :
  (forall s, isRunning (f s) = isRunning s) -> (forall s, history (f s) = history s) ->
  steps quiet (setState f).
Proof.
  intros Hr Hh w. constructor; cbn; auto; try lia.
  - exists []. split; [symmetry; apply app_nil_r | reflexivity].
  - unfold lines. cbn. now rewrite Hh.
Qed.

Lemma quiet_addLog c t : steps quiet (addLog c t).
Proof.
  intros w. constructor; cbn; auto; try lia.
  - exists []. split; [symmetry; apply app_nil_r | reflexivity].
  - intros x. unfold lines. cbn. rewrite map_app, elem_of_app. tauto.
Qed.

Lemma quiet_call o : scripted {| at_time := 0%N; op := o |} = false -> steps quiet (call o).
Proof.
  intros Ho w. constructor; cbn; auto; try lia.
  exists [{| at_time := now w; op := o |}]. split; [reflexivity |].
  cbn. unfold scripted in *. cbn in *. now rewrite Ho.
Qed.

Lemma quiet_suspend k : steps quiet (suspend k).
Proof.
  intros w. constructor; cbn; auto; try lia.
  exists []. split; [symmetry; apply app_nil_r | reflexivity].
Qed.

Lemma quiet_setTimeout c d : steps quiet (setTimeout c d).
Proof.
  intros w. constructor; cbn; auto; try lia.
  - intros h t H _ Hh. rewrite lookup_insert_ne by lia. exact H.
  - intros h t H Hi. apply lookup_insert_Some in H as [[_ <-]|[_ H]]; [discriminate | exact H].
  - exists []. split; [symmetry; apply app_nil_r | reflexivity].
Qed.

Ltac split_steps :=
  repeat match goal with
  | |- steps _ (_ >> _) => apply steps_seq
  | |- steps _ skip => apply steps_skip
  | |- steps _ (when _ _) => apply steps_when
  | |- steps _ (setState _) => apply quiet_setState; intros; reflexivity
  | |- steps _ (addLog _ _) => apply quiet_addLog
  | |- steps _ (call _) => apply quiet_call; reflexivity
  | |- steps _ (suspend _) => apply quiet_suspend
  | |- steps _ (setTimeout _ _) => apply quiet_setTimeout
  | |- steps _ (match ?o with _ => _ end) => destruct o
  end.

Lemma quiet_handleAnalysis r : steps quiet (handleAnalysis r).
Proof. unfold handleAnalysis. split_steps. Qed.

Lemma quiet_handleImportPdu r : steps quiet (handleImportPdu r).
Proof. unfold handleImportPdu. split_steps. Qed.

Lemma quiet_handleBuilderSubmit r : steps quiet (handleBuilderSubmit r).
Proof. unfold handleBuilderSubmit, handleExecuteCommand. split_steps. Qed.

Lemma quiet_fetchEducation topic : steps quiet (fetchEducation topic).
Proof. unfold fetchEducation. split_steps. Qed.

Lemma quiet_applyExample r ex : steps quiet (applyExample r ex).
Proof. unfold applyExample. split_steps. Qed.

Lemma quiet_followUp c : steps quiet (followUp c).
Proof. unfold followUp. split_steps. Qed.

Lemma quiet_resume k s a : resume k s = Some a -> steps quiet a.
Proof.
  intros Hr. destruct k, s; cbn in Hr; try discriminate; injection Hr as <-.
  - unfold handleAnalysis_settled. split_steps.
  - unfold handleImportPdu_settled. split_steps.
  - unfold handleExecuteCommand_settled. split_steps.
  - unfold followUp_settled. split_steps. intros w. constructor; cbn; auto; try lia.
    exists []. split; [symmetry; apply app_nil_r | reflexivity].
  - unfold fetchEducation_settled. split_steps.
Qed.

(** Every event that neither starts nor stops the run, and is not a tick
    of a repeating timer, is quiet. *)
Lemma quiet_step e w w' :
  keeps_run e = true ->
  step e w = Some w' ->
  (forall h t, e = Fire h -> timers w !! h = Some t -> is_interval t = false) ->
  quiet w w'.
Proof.
  intros Hkeep Hstep Hfire.
  destruct e; try discriminate Hkeep; clear Hkeep; cbn in Hstep; try (injection Hstep as <-).
  - apply quiet_setState; intros; reflexivity.
  - apply quiet_setState; intros; reflexivity.
  - apply quiet_setState; intros; reflexivity.
  - apply quiet_setState; intros; reflexivity.
  - apply quiet_setState; intros; reflexivity.
  - apply quiet_handleAnalysis.
  - apply quiet_handleImportPdu.
  - apply quiet_handleBuilderSubmit.
  - apply quiet_fetchEducation.
  - destruct (educationalExamples !! i); [| discriminate]. injection Hstep as <-.
    apply quiet_applyExample.
  - apply quiet_setState; intros; reflexivity.
  - apply quiet_setState; intros; reflexivity.
  - apply quiet_setState; intros; reflexivity.
  - apply quiet_addLog.
  - destruct (awaiting w !! h) as [k|] eqn:Hk; [| discriminate].
    destruct (resume k s) as [a|] eqn:Ha; [| discriminate]. injection Hstep as <-.
    apply quiet_trans with (with_awaiting (delete h (awaiting w)) w).
    + constructor; cbn; auto; try lia.
      exists []. split; [symmetry; apply app_nil_r | reflexivity].
    + now apply (quiet_resume k s a).
  - destruct (timers w !! h) as [t|] eqn:Ht; [| discriminate].
    destruct (N.leb _ _); [| discriminate]. injection Hstep as <-.
    specialize (Hfire h t eq_refl Ht).
    destruct t as [p d i r | d c]; [discriminate |]. cbn.
    apply quiet_trans with (with_timers (delete h (timers w)) w).
    + constructor; cbn; auto; try lia.
      * intros h' t' H Hi _. rewrite lookup_delete_ne; [exact H |].
        intros <-. rewrite Ht in H. injection H as <-. discriminate.
      * intros h' t' H _. apply lookup_delete_Some in H as [_ H]. exact H.
      * exists []. split; [symmetry; apply app_nil_r | reflexivity].
    + apply quiet_followUp.
  - constructor; cbn; auto; try lia.
    exists []. split; [symmetry; apply app_nil_r | reflexivity].
Qed.

Lemma spaced_snoc gap times t :
  spaced gap times -> (forall tl, last times = Some tl -> (tl + gap <= t)%N) ->
  spaced gap (times ++ [t]).
Proof.
  induction times as [|t1 [|t2 rest] IH]; cbn; intros Hs Hl.
  - exact I.
  - split; [| exact I]. now apply Hl.
  - destruct Hs as [H1 H2]. split; [exact H1 |]. apply IH; [exact H2 |]. exact Hl.
Qed.

Lemma scripted_since_app n w w' l :
  issued w' = issued w ++ l -> n <= List.length (issued w) ->
  scripted_since n w' = scripted_since n w ++ List.filter scripted l.
Proof.
  intros E Hn. unfold scripted_since. rewrite E, drop_app_le by exact Hn.
  apply List.filter_app.
Qed.

(** The punctual run, from start to completion. *)
Lemma punctualRun_ends : run punctualRun worldWithResults = Some worldAfterRun.
Proof. vm_compute. reflexivity. Qed.

(** The punctual run issues the four commands at 1000, 9000, 17000 and
    25000 ms and is over at the fourth tick, at 33000 ms. *)
Example punctualRun_trace :
  map (fun c => (at_time c, op c)) (issued worldAfterRun)
  = [(1000%N, GenerateCommand "Get Location" (Some "SAT_BROWSER") None);
     (9000%N, GenerateCommand "Exfiltrate IMEI" (Some "SAT_BROWSER") None);
     (17000%N, GenerateCommand "Request Subscriber ID" (Some "SAT_BROWSER") None);
     (25000%N, GenerateCommand "Query Cell ID" (Some "SAT_BROWSER") None)]
  /\ isRunning (st worldAfterRun) = false
  /\ intervalRef worldAfterRun = None
  /\ timers worldAfterRun = ∅.
Proof. vm_compute. repeat split. Qed.

(** A tick is refused before its timer is due. *)
Example early_tick_refused :
  run [ClickToggle; Elapse 7999; Fire 2] worldWithResults = None.
Proof. vm_compute. reflexivity. Qed.

End SessionSpec.

(** * Further properties of the session *)

Module LogSpec.
Import Js App Invariants SessionSpec.

(** ** The log *)

Lemma logs_same b w w' : st w' = st w -> now w' = now w -> logs b w w'.
Proof.
  intros Hs Hn. constructor; [exact Hn |].
  exists []. split; [constructor |]. left. now rewrite Hs, app_nil_r.
Qed.

Lemma logs_refl b w : logs b w w.
Proof. now apply logs_same. Qed.

Lemma logs_trans b w1 w2 w3 : logs b w1 w2 -> logs b w2 w3 -> logs b w1 w3.
Proof.
  intros [N1 (i1 & F1 & H1)] [N2 (i2 & F2 & H2)].
  constructor; [congruence |].
  rewrite N1 in F2.
  destruct H2 as [H2 | [Hb H2]].
  - exists (i1 ++ i2). split; [now apply Forall_app |].
    destruct H1 as [H1 | [Hb H1]].
    + left. now rewrite H2, H1, app_assoc.
    + right. split; [exact Hb |]. now rewrite H2, H1.
  - exists i2. split; [exact F2 |]. right. now split.
Qed.

Lemma logs_weaken w w' : logs false w w' -> logs true w w'.
Proof.
  intros [N1 (i1 & F1 & H1)]. constructor; [exact N1 |].
  exists i1. split; [exact F1 |]. destruct H1 as [H1 | [Hb _]]; [now left | discriminate].
Qed.

Lemma logs_skip b : steps (logs b) skip.
Proof. intros w. apply logs_refl. Qed.

Lemma logs_seq b a1 a2 : steps (logs b) a1 -> steps (logs b) a2 -> steps (logs b) (a1 >> a2).
Proof. intros H1 H2 w. exact (logs_trans b _ _ _ (H1 w) (H2 (a1 w))). Qed.

Lemma logs_when b c a : steps (logs b) a -> steps (logs b) (when c a).
Proof. intros Ha. destruct c; [exact Ha | apply logs_skip]. Qed.

Lemma logs_setState b f : (forall s, history (f s) = history s) -> steps (logs b) (setState f).
Proof.
  intros Hf w. constructor; [reflexivity |].
  exists []. split; [constructor |]. left. cbn. now rewrite Hf, app_nil_r.
Qed.

Lemma logs_clear : steps (logs true) (setState (set_history [])).
Proof.
  intros w. constructor; [reflexivity |].
  exists []. split; [constructor |]. right. now split.
Qed.

Lemma logs_addLog b c t : steps (logs b) (addLog c t).
Proof.
  intros w. constructor; [reflexivity |].
  eexists. split; [| left; reflexivity]. repeat constructor.
Qed.

Lemma logs_call b o : steps (logs b) (call o).
Proof. intros w. now apply logs_same. Qed.

Lemma logs_suspend b k : steps (logs b) (suspend k).
Proof. intros w. now apply logs_same. Qed.

Lemma logs_setTimeout b c d : steps (logs b) (setTimeout c d).
Proof. intros w. now apply logs_same. Qed.

Ltac split_logs :=
  repeat match goal with
  | |- steps _ (_ >> _) => apply logs_seq
  | |- steps _ skip => apply logs_skip
  | |- steps _ (when _ _) => apply logs_when
  | |- steps _ (setState _) => apply logs_setState; intros; reflexivity
  | |- steps _ (addLog _ _) => apply logs_addLog
  | |- steps _ (call _) => apply logs_call
  | |- steps _ (suspend _) => apply logs_suspend
  | |- steps _ (setTimeout _ _) => apply logs_setTimeout
  | |- steps _ (match ?o with _ => _ end) => destruct o
  end.

Lemma logs_stopSimulation b : steps (logs b) stopSimulation.
Proof.
  unfold stopSimulation. split_logs.
  intros w. apply logs_same; destruct (intervalRef w) as [[|h]|]; reflexivity.
Qed.

Lemma logs_handleExecuteCommand b r c isAuto params :
  steps (logs b) (handleExecuteCommand r c isAuto params).
Proof. unfold handleExecuteCommand. split_logs. Qed.

Lemma logs_runNext b r i w : logs b w (runNext r i w).1.
Proof.
  unfold runNext. destruct (Nat.leb _ _); cbn.
  - apply (logs_seq b _ _ (logs_addLog b _ _) (logs_stopSimulation b)).
  - apply logs_handleExecuteCommand.
Qed.

Lemma logs_startSimulation b r : steps (logs b) (startSimulation r).
Proof.
  intros w. unfold startSimulation.
  set (w1 := (_ >> _) w).
  assert (H1 : logs b w w1).
  { subst w1. revert w.
    match goal with |- forall w, logs b w (?a w) => change (steps (logs b) a) end.
    split_logs. }
  pose proof (logs_runNext b r 0 w1) as H2.
  destruct (runNext r 0 w1) as [w2 index]. cbn in H2.
  apply (logs_trans b _ _ _ H1), (logs_trans b _ _ _ H2). now apply logs_same.
Qed.

Lemma logs_fire b h t w : logs b w (fire h t w).
Proof.
  destruct t as [p d i r | d c]; cbn.
  - pose proof (logs_runNext b r i w) as H2.
    destruct (runNext r i w) as [w2 index]. cbn in H2.
    destruct (timers w2 !! h); [| exact H2].
    apply (logs_trans b _ _ _ H2). now apply logs_same.
  - apply logs_trans with (with_timers (delete h (timers w)) w); [now apply logs_same |].
    revert w. intros w. generalize (with_timers (delete h (timers w)) w). clear w.
    change (steps (logs b) (followUp c)). unfold followUp. split_logs.
Qed.

Lemma logs_resume b k s a : resume k s = Some a -> steps (logs b) a.
Proof.
  intros Hr. destruct k, s; cbn in Hr; try discriminate; injection Hr as <-.
  - unfold handleAnalysis_settled. split_logs.
  - unfold handleImportPdu_settled. split_logs.
  - unfold handleExecuteCommand_settled. split_logs.
  - unfold followUp_settled. split_logs. intros w. now apply logs_same.
  - unfold fetchEducation_settled. split_logs.
Qed.

Lemma logs_handleAnalysis b r : steps (logs b) (handleAnalysis r).
Proof. unfold handleAnalysis. split_logs. Qed.

Lemma logs_handleImportPdu b r : steps (logs b) (handleImportPdu r).
Proof. unfold handleImportPdu. split_logs. Qed.

Lemma logs_fetchEducation b topic : steps (logs b) (fetchEducation topic).
Proof. unfold fetchEducation. split_logs. Qed.

Lemma logs_applyExample b r ex : steps (logs b) (applyExample r ex).
Proof. unfold applyExample. split_logs. Qed.

Lemma logs_clearHistory r : steps (logs true) (clearHistory r).
Proof.
  unfold clearHistory. apply logs_seq; [apply logs_clear |]. split_logs.
  apply logs_stopSimulation.
Qed.

(** Every event but the passing of time is an instantaneous writer of the
    log; only the reset may empty it. *)
Lemma logs_step e w w' :
  step e w = Some w' -> is_elapse e = false -> logs (is_reset e) w w'.
Proof.
  intros Hstep Hd.
  destruct e; try discriminate Hd; cbn in Hstep; try (injection Hstep as <-);
    try (apply logs_setState; intros; reflexivity).
  - apply logs_handleAnalysis.
  - apply logs_handleImportPdu.
  - unfold handleBuilderSubmit. apply logs_handleExecuteCommand.
  - unfold toggleSimulation. destruct (isRunning (st w)).
    + apply logs_stopSimulation.
    + apply logs_startSimulation.
  - apply logs_fetchEducation.
  - destruct (educationalExamples !! i); [| discriminate]. injection Hstep as <-.
    apply logs_applyExample.
  - apply logs_clearHistory.
  - apply logs_addLog.
  - destruct (awaiting w !! h) as [k|]; [| discriminate].
    destruct (resume k s) as [a|] eqn:Ha; [| discriminate]. injection Hstep as <-.
    apply logs_trans with (with_awaiting (delete h (awaiting w)) w); [now apply logs_same |].
    now apply (logs_resume _ k s a).
  - destruct (timers w !! h) as [t|]; [| discriminate].
    destruct (N.leb _ _); [| discriminate]. injection Hstep as <-.
    apply logs_fire.
Qed.

Lemma nondecreasing_app l1 l2 t :
  nondecreasing l1 -> Forall (fun x => (x <= t)%N) l1 -> Forall (fun x => x = t) l2 ->
  nondecreasing (l1 ++ l2).
Proof.
  intros H1 F1 F2. induction l1 as [|a [|b l1] IH]; cbn in *.
  - induction F2 as [|x [|y l2] Hx F2 IH2]; cbn; auto.
    split; [| exact IH2]. inversion F2; subst. lia.
  - destruct l2 as [|y l2]; cbn; [exact I |].
    inversion F1; subst. inversion F2; subst. split; [assumption |]. apply IH; auto.
  - destruct H1 as [Hab H1]. split; [exact Hab |]. apply IH; [exact H1 |].
    now inversion F1.
Qed.

Lemma log_in_order_logs b w w' : logs b w w' -> log_in_order w -> log_in_order w'.
Proof.
  intros [Hn (items & Fi & H)] [H1 H2]. unfold log_in_order. rewrite Hn.
  assert (Fi' : Forall (fun i => (HistoryItem.timestamp i <= now w)%N) items).
  { eapply Forall_impl; [exact Fi |]. cbn. intros i ->. lia. }
  assert (Fm : Forall (fun x => x = now w) (map HistoryItem.timestamp items)).
  { apply Forall_fmap. exact Fi. }
  destruct H as [-> | [_ ->]].
  - split.
    + rewrite map_app. apply nondecreasing_app with (now w); [exact H1 | | exact Fm].
      apply Forall_fmap. exact H2.
    + now apply Forall_app.
  - split; [| exact Fi'].
    apply (nondecreasing_app [] _ (now w)); [exact I | constructor | exact Fm].
Qed.

Lemma log_in_order_step e w w' : step e w = Some w' -> log_in_order w -> log_in_order w'.
Proof.
  intros Hstep H. destruct (is_elapse e) eqn:He.
  - destruct e; try discriminate He. cbn in Hstep. injection Hstep as <-.
    destruct H as [H1 H2]. split; [exact H1 |].
    eapply Forall_impl; [exact H2 |]. cbn. intros i Hi. lia.
  - exact (log_in_order_logs _ w w' (logs_step e w w' Hstep He) H).
Qed.

(** X1. In every state the session reaches, the entries of the log are in
    the order of their timestamps, and no entry is stamped later than the
    current time. *)
Theorem log_timestamps_in_order (t0 : N) (es : list Event) (w : World) :
  run es (initialWorld t0) = Some w ->
  nondecreasing (map HistoryItem.timestamp (history (st w)))
  /\ Forall (fun i => (HistoryItem.timestamp i <= now w)%N) (history (st w)).
Proof.
  assert (H0 : log_in_order (initialWorld t0)) by (split; [exact I | constructor]).
  revert H0. generalize (initialWorld t0) as w0.
  induction es as [|e es IH]; intros w0 H0 Hrun; cbn in Hrun.
  - now injection Hrun as <-.
  - destruct (step e w0) as [w1|] eqn:Hstep; [| discriminate].
    exact (IH w1 (log_in_order_step e w0 w1 Hstep H0) Hrun).
Qed.

Lemma log_timestamps_in_order_witness :
  run punctualRun (initialWorld 1000) = Some worldAfterPlainRun
  /\ nondecreasing (map HistoryItem.timestamp (history (st worldAfterPlainRun)))
  /\ Forall (fun i => (HistoryItem.timestamp i <= 33000)%N) (history (st worldAfterPlainRun)).
Proof.
  assert (E : run punctualRun (initialWorld 1000) = Some worldAfterPlainRun)
    by (vm_compute; reflexivity).
  split; [exact E |].
  exact (log_timestamps_in_order 1000 punctualRun _ E).
Defined.

(** X2. The log is append-only: whatever happens other than a reset, the
    log before is a prefix of the log after, and the entries added carry
    the time of the event. *)
Theorem log_is_append_only (e : Event) (w w' : World) :
  step e w = Some w' -> is_reset e = false ->
  exists items,
    history (st w') = history (st w) ++ items
    /\ Forall (fun i => HistoryItem.timestamp i = now w) items.
Proof.
  intros Hstep Hr. destruct (is_elapse e) eqn:He.
  - destruct e; try discriminate He. cbn in Hstep. injection Hstep as <-.
    exists []. split; [cbn; now rewrite app_nil_r | constructor].
  - pose proof (logs_step e w w' Hstep He) as [_ (items & Fi & H)]. rewrite Hr in H.
    exists items. destruct H as [H | [Hb _]]; [now split | discriminate].
Qed.

Lemma log_is_append_only_witness :
  step ClickToggle worldInFlight = Some (toggleSimulation (st worldInFlight) worldInFlight)
  /\ is_reset ClickToggle = false
  /\ exists items,
       history (st (toggleSimulation (st worldInFlight) worldInFlight))
       = history (st worldInFlight) ++ items
       /\ Forall (fun i => HistoryItem.timestamp i = now worldInFlight) items.
Proof.
  split; [reflexivity |]. split; [reflexivity |].
  exact (log_is_append_only ClickToggle worldInFlight _ eq_refl eq_refl).
Defined.

End LogSpec.

(** * The schedule of a scripted run, tick by tick *)

Module ScheduleSpec.
Import Js App Invariants Schedule SessionSpec LogSpec.

Lemma calls_for_more env times cmds extra :
  List.length cmds <= List.length times ->
  calls_for env (times ++ extra) cmds = calls_for env times cmds.
Proof.
  unfold calls_for. revert cmds.
  induction times as [|t times IH]; intros [|c cmds] H; cbn in *; try reflexivity; try lia.
  - now destruct extra.
  - f_equal. apply IH. lia.
Qed.

Lemma calls_for_next env times cmds t c :
  cmds !! List.length times = Some c ->
  calls_for env (times ++ [t]) cmds
  = calls_for env times cmds ++ [{| at_time := t; op := GenerateCommand c env None |}].
Proof.
  unfold calls_for. revert cmds.
  induction times as [|t' times IH]; intros [|c' cmds] H; cbn in *; try discriminate.
  - injection H as ->. reflexivity.
  - f_equal. now apply IH.
Qed.

Lemma last_time_cons t0 ticks : last (t0 :: ticks) = Some (last_time t0 ticks).
Proof.
  unfold last_time. revert t0. induction ticks as [|t ticks IH]; intros t0; [reflexivity |].
  change (last (t0 :: t :: ticks)) with (last (t :: ticks)). rewrite IH.
  destruct ticks; reflexivity.
Qed.

Lemma last_time_snoc t0 ticks t : last_time t0 (ticks ++ [t]) = t.
Proof. unfold last_time. now rewrite last_snoc. Qed.

(** An event other than the reset only adds to the log. *)
Lemma history_grows e w w' :
  step e w = Some w' -> is_reset e = false ->
  exists items, history (st w') = history (st w) ++ items.
Proof.
  intros Hstep Hr. destruct (is_elapse e) eqn:He.
  - destruct e; try discriminate He. cbn in Hstep. injection Hstep as <-.
    exists []. cbn. now rewrite app_nil_r.
  - pose proof (logs_step e w w' Hstep He) as [_ (items & _ & H)]. rewrite Hr in H.
    exists items. destruct H as [H | [Hb _]]; [exact H | discriminate].
Qed.

(** The start: the two notices, step 0 at once, the timer armed. *)
Lemma on_start w0 :
  isRunning (st w0) = false -> no_interval w0 ->
  on_schedule w0 (startSimulation (st w0) w0) [].
Proof.
  intros Hr Hn. unfold startSimulation, runNext. cbn.
  constructor; cbn.
  - lia.
  - eexists. unfold stamped. cbn. rewrite !map_app. cbn. rewrite <- !app_assoc. reflexivity.
  - unfold scripted_since. cbn. rewrite drop_app_length. reflexivity.
  - rewrite length_app. lia.
  - exact I.
  - split; [reflexivity |]. exists (S (nextHandle w0)). cbn.
    split; [lia |]. split; [lia |]. split; [reflexivity |].
    split; [apply lookup_insert_eq |].
    intros h' t Ht Hi. apply lookup_insert_Some in Ht as [[E _]|[_ Ht]]; [now symmetry |].
    rewrite (Hn h' t Ht) in Hi. discriminate.
Qed.

(** A quiet transition leaves the run where it stands. *)
Lemma on_quiet w0 w w' ticks :
  quiet w w' -> (exists items, history (st w') = history (st w) ++ items) ->
  on_schedule w0 w ticks -> on_schedule w0 w' ticks.
Proof.
  intros [Q1 Q2 Q3 Q4 Q5 Q6 (l & Q7 & Q7') Q8] (items & Hh) [S1 S2 S3 S4 S5 S6].
  assert (Hst : stamped w' = stamped w ++ map (fun i => (HistoryItem.timestamp i,
                  HistoryItem.type i, HistoryItem.content i)) items).
  { unfold stamped. now rewrite Hh, map_app. }
  constructor; auto.
  - destruct S2 as (post & S2). eexists. rewrite Hst, S2, <- !app_assoc. reflexivity.
  - rewrite (scripted_since_app _ w w' l Q7 S4), Q7', app_nil_r. exact S3.
  - rewrite Q7, length_app. lia.
  - destruct (_ <? _).
    + destruct S6 as (P1 & h & P2 & P3 & P4 & P5 & P6).
      split; [congruence |]. exists h.
      split; [exact P2 |]. split; [lia |]. split; [congruence |].
      split; [now apply Q5 |].
      intros h' t Ht Hi. apply (P6 h' t); auto.
    + destruct S6 as (P1 & P2 & P3 & t & pre & post & P4 & P5).
      split; [congruence |]. split; [congruence |]. split.
      * intros h t' Ht. destruct (is_interval t') eqn:Hi; [| reflexivity].
        rewrite <- (P3 h t'); auto.
      * exists t, pre. eexists. split; [exact P4 |].
        rewrite Hst, P5, <- !app_assoc. reflexivity.
Qed.

(** A tick of the repeating timer: the next command, or the completion. *)
Lemma on_tick w0 w ticks h t :
  on_schedule w0 w ticks ->
  timers w !! h = Some t -> is_interval t = true -> (due_time t <= now w)%N ->
  on_schedule w0 (fire h t w) (ticks ++ [now w]).
Proof.
  intros [S1 S2 S3 S4 S5 S6] Ht Hi Hdue.
  remember autoCommands as cmds eqn:Ecmds in *.
  assert (L : List.length cmds = 4) by (subst cmds; reflexivity).
  destruct (Nat.ltb_spec (List.length ticks) (List.length cmds)) as [Hlt | Hge];
    [| destruct S6 as (_ & _ & P3 & _); rewrite (P3 h t Ht) in Hi; discriminate].
  destruct S6 as (P1 & h0 & P2 & P3 & P4 & P5 & P6).
  assert (h = h0) as -> by (apply (P6 h t); assumption).
  rewrite P5 in Ht. injection Ht as <-. cbn in Hdue.
  assert (Hsp : spaced 8000 (now w0 :: ticks ++ [now w])).
  { change (spaced 8000 ((now w0 :: ticks) ++ [now w])).
    apply spaced_snoc; [exact S5 |]. intros tl Hl.
    rewrite last_time_cons in Hl. injection Hl as <-. exact Hdue. }
  unfold fire, runNext. rewrite <- Ecmds.
  destruct (Nat.leb (List.length cmds) (S (List.length ticks))) eqn:Hk.
  - apply Nat.leb_le in Hk.
    unfold seq, stopSimulation, seq. cbn. rewrite P4.
    destruct h0 as [|h0]; [congruence |]. cbn. rewrite lookup_delete_eq.
    subst cmds. constructor.
    + rewrite length_app. cbn. lia.
    + destruct S2 as (post & S2). eexists. unfold stamped in *. cbn.
      rewrite !map_app, S2, <- !app_assoc. reflexivity.
    + change (now w0 :: ticks ++ [now w]) with ((now w0 :: ticks) ++ [now w]).
      rewrite calls_for_more by (cbn; lia). exact S3.
    + exact S4.
    + exact Hsp.
    + replace (List.length (ticks ++ [now w]) <? List.length autoCommands) with false
        by (symmetry; apply Nat.ltb_ge; rewrite length_app; cbn; lia).
      split; [reflexivity |]. split; [reflexivity |]. split.
      * intros h' t' Hl. cbn in Hl. apply lookup_delete_Some in Hl as [Hne Hl].
        destruct (is_interval t') eqn:Hi'; [| reflexivity].
        exfalso. apply Hne. symmetry. now apply (P6 h' t').
      * exists (now w), (stamped w), []. split; [apply last_snoc |].
        unfold stamped. cbn. rewrite !map_app, <- !app_assoc. reflexivity.
  - apply Nat.leb_gt in Hk.
    destruct (lookup_lt_is_Some_2 cmds (S (List.length ticks)) Hk) as [c Hc].
    cbn. rewrite P5.
    subst cmds. constructor.
    + rewrite length_app. cbn. lia.
    + destruct S2 as (post & S2). eexists. unfold stamped in *. cbn.
      rewrite !map_app, S2, <- !app_assoc. reflexivity.
    + change (now w0 :: ticks ++ [now w]) with ((now w0 :: ticks) ++ [now w]).
      rewrite (calls_for_next _ _ _ _ c) by exact Hc.
      unfold scripted_since in *. cbn.
      rewrite drop_app_le by exact S4. rewrite List.filter_app, S3. cbn.
      f_equal. f_equal. f_equal. f_equal.
      clear -Hc.
      generalize dependent (List.length ticks). intros n Hc.
      do 3 (destruct n as [|n]; [cbn in Hc; injection Hc as <-; reflexivity |]).
      discriminate Hc.
    + cbn. rewrite length_app. lia.
    + exact Hsp.
    + replace (List.length (ticks ++ [now w]) <? List.length autoCommands) with true
        by (symmetry; apply Nat.ltb_lt; rewrite length_app; cbn; lia).
      split; [exact P1 |]. exists h0. cbn.
      split; [exact P2 |]. split; [lia |]. split; [exact P4 |].
      split.
      * rewrite lookup_insert_eq, last_time_snoc, length_app. cbn.
        replace (List.length ticks + 1) with (S (List.length ticks)) by lia. reflexivity.
      * intros h' t' Hl Hi'. apply lookup_insert_Some in Hl as [[E _]|[_ Hl]]; [now symmetry |].
        now apply (P6 h' t').
Qed.

Lemma on_step w0 w w' ticks e :
  on_schedule w0 w ticks -> keeps_run e = true -> step e w = Some w' ->
  on_schedule w0 w' (ticks ++ (if is_tick e w then [now w] else [])).
Proof.
  intros HS Hk Hstep.
  destruct (is_tick e w) eqn:Htick.
  - destruct e; try discriminate Htick. cbn in Htick, Hstep.
    destruct (timers w !! h) as [t|] eqn:Ht; [| discriminate].
    destruct (N.leb _ _) eqn:Hd; [| discriminate]. injection Hstep as <-.
    apply N.leb_le in Hd. exact (on_tick w0 w ticks h t HS Ht Htick Hd).
  - rewrite app_nil_r. apply on_quiet with w; [| | exact HS].
    + apply (quiet_step e w w' Hk Hstep).
      intros h t -> Ht. cbn in Htick. now rewrite Ht in Htick.
    + apply (history_grows e w w' Hstep). now destruct e.
Qed.

Lemma on_run w0 es w1 w ticks :
  on_schedule w0 w1 ticks -> forallb keeps_run es = true -> run es w1 = Some w ->
  on_schedule w0 w (ticks ++ tick_times es w1).
Proof.
  revert w1 ticks. induction es as [|e es IH]; intros w1 ticks HS Hes Hrun.
  - cbn in Hrun |- *. injection Hrun as <-. now rewrite app_nil_r.
  - cbn in Hes. apply andb_true_iff in Hes as [He Hes].
    cbn in Hrun |- *. destruct (step e w1) as [w2|] eqn:Hstep; [| discriminate].
    rewrite app_assoc. apply (IH w2); [| exact Hes | exact Hrun].
    exact (on_step w0 w1 w2 ticks e HS He Hstep).
Qed.

(** C7. The operator starts a scripted run in a world [w0] where none is
    active, and any events follow that neither stop nor restart it; let
    [ticks] be the times at which the repeating timer has ticked. Then the
    start has logged its two notices at the time of the start, on top of
    the log of [w0]; the scripted calls issued since are exactly those of
    [autoCommands] in list order, the first at the time of the start
    itself and the next ones at the first three ticks, one per tick;
    the start and the ticks are at least 8000 ms apart from one another;
    there are at most four ticks. Before the fourth tick [isRunning] is
    true and the repeating timer is armed with period 8000, due 8000 ms
    after the last step, holding the cursor of the next command. The
    fourth tick finds the cursor past the last command: it issues no call,
    logs the completion and the halt notice at its own time, sets
    [isRunning] to false and clears the timer, so that no further tick
    follows. A tick is accepted exactly when the timer is due. *)
Theorem scripted_run_follows_schedule (w0 : World) (es : list Event) (w : World) :
  isRunning (st w0) = false ->
  no_interval w0 ->
  forallb keeps_run es = true ->
  run (ClickToggle :: es) w0 = Some w ->
  on_schedule w0 w (tick_times es (startSimulation (st w0) w0))
  /\ (forall h due k r, timers w !! h = Some (Interval 8000 due k r) ->
                        (is_Some (step (Fire h) w) <-> (due <= now w)%N)).
Proof.
  intros Hr Hn Hes Hrun. cbn in Hrun. unfold toggleSimulation in Hrun. rewrite Hr in Hrun.
  split.
  - exact (on_run w0 es _ w [] (on_start w0 Hr Hn) Hes Hrun).
  - intros h due k r Ht. cbn. rewrite Ht. cbn.
    destruct (N.leb_spec due (now w)) as [Hd | Hd]; split; intros Hx; try lia; eauto.
    destruct Hx as [? Hx]. discriminate Hx.
Qed.

Lemma scripted_run_follows_schedule_witness :
  isRunning (st worldWithResults) = false
  /\ no_interval worldWithResults
  /\ forallb keeps_run (tail punctualRun) = true
  /\ run (ClickToggle :: tail punctualRun) worldWithResults = Some worldAfterRun
  /\ on_schedule worldWithResults worldAfterRun [9000; 17000; 25000; 33000]%N.
Proof.
  assert (Hn : no_interval worldWithResults)
    by (intros h t H; cbn in H; rewrite lookup_empty in H; discriminate).
  assert (Hk : forallb keeps_run (tail punctualRun) = true) by (vm_compute; reflexivity).
  assert (Ht : tick_times (tail punctualRun)
                 (startSimulation (st worldWithResults) worldWithResults)
               = [9000; 17000; 25000; 33000]%N) by (vm_compute; reflexivity).
  split; [reflexivity |]. split; [exact Hn |]. split; [exact Hk |].
  split; [exact punctualRun_ends |].
  rewrite <- Ht.
  exact (proj1 (scripted_run_follows_schedule worldWithResults (tail punctualRun) worldAfterRun
                  eq_refl Hn Hk punctualRun_ends)).
Defined.

End ScheduleSpec.

Module TimerSpec.
Import Js App Invariants SessionSpec.

(** ** The repeating timer *)

(** A transition that leaves the timer table, the ref and the running
    flag alone keeps the ownership. *)
Lemma owned_frame w w' :
  timers w' = timers w -> intervalRef w' = intervalRef w ->
  isRunning (st w') = isRunning (st w) -> nextHandle w <= nextHandle w' ->
  owned w -> owned w'.
Proof.
  intros Ht Hr Hi Hn [A B C D]. constructor.
  - intros h t. rewrite Ht, Hr. apply A.
  - intros h. rewrite Hr, Ht. intros Hh. destruct (B h Hh) as (B1 & B2 & B3).
    split; [exact B1 |]. split; [lia | exact B3].
  - now rewrite Hi, Hr.
  - lia.
Qed.

Lemma owned_quiet w w' : quiet w w' -> owned w -> owned w'.
Proof.
  intros [Q1 Q2 Q3 Q4 Q5 Q6 Q7 Q8] [A B C D]. constructor.
  - intros h t Ht Hi. rewrite Q2. apply (A h t); auto.
  - intros h. rewrite Q2. intros Hh. destruct (B h Hh) as (B1 & B2 & t & B3 & B4).
    split; [exact B1 |]. split; [lia |]. exists t. split; [| exact B4]. now apply Q5.
  - now rewrite Q1, Q2.
  - lia.
Qed.

Lemma owned_stopSimulation w : owned w -> owned (stopSimulation w).
Proof.
  intros [A B C D]. unfold stopSimulation, seq. cbn.
  destruct (intervalRef w) as [h|] eqn:Hr.
  - destruct (B h eq_refl) as (B1 & B2 & t & B3 & B4).
    destruct h as [|h]; [congruence |]. cbn.
    constructor; cbn.
    + intros h' t' Hl Hi. apply lookup_delete_Some in Hl as [Hne Hl].
      specialize (A h' t' Hl Hi). congruence.
    + discriminate.
    + split; [discriminate | intros [? ?]; discriminate].
    + exact D.
  - constructor; cbn.
    + intros h' t' Hl Hi. specialize (A h' t' Hl Hi). congruence.
    + rewrite Hr. discriminate.
    + rewrite Hr. split; [discriminate | intros [? ?]; discriminate].
    + exact D.
Qed.

Lemma owned_handleExecuteCommand r c isAuto params w :
  owned w -> owned (handleExecuteCommand r c isAuto params w).
Proof.
  apply owned_frame; try reflexivity.
  - unfold handleExecuteCommand, seq, when. destruct (negb isAuto); reflexivity.
  - unfold handleExecuteCommand, seq, when. destruct (negb isAuto); reflexivity.
  - unfold handleExecuteCommand, seq, when. destruct (negb isAuto); reflexivity.
  - unfold handleExecuteCommand, seq, when. destruct (negb isAuto); cbn; lia.
Qed.

Lemma owned_startSimulation r w :
  isRunning (st w) = false -> owned w -> owned (startSimulation r w).
Proof.
  intros Hrun [A B C D].
  assert (Hnone : intervalRef w = None).
  { destruct (intervalRef w) eqn:E; [| reflexivity].
    assert (is_Some (Some n)) as Hs by eauto. apply C in Hs. congruence. }
  unfold startSimulation, runNext. cbn.
  constructor; cbn.
  - intros h t Hl Hi. apply lookup_insert_Some in Hl as [[<- _]|[_ Hl]]; [reflexivity |].
    specialize (A h t Hl Hi). congruence.
  - intros h [= <-]. split; [lia |]. split; [lia |].
    eexists. split; [apply lookup_insert_eq | reflexivity].
  - split; eauto.
  - lia.
Qed.

Lemma owned_fire h t w :
  timers w !! h = Some t -> owned w -> owned (fire h t w).
Proof.
  intros Ht H. destruct t as [p d i r | d c]; cbn.
  - pose proof (owned_named w H h _ Ht eq_refl) as Href.
    unfold runNext. destruct (Nat.leb _ _).
    + set (w2 := (addLog "[SYSTEM] Extensive audit sequence completed." SUCCESS
                  >> stopSimulation) w).
      assert (H2 : owned w2).
      { apply owned_stopSimulation.
        exact (owned_frame w
                 (addLog "[SYSTEM] Extensive audit sequence completed." SUCCESS w)
                 eq_refl eq_refl eq_refl (le_n _) H). }
      assert (Hl : timers w2 !! h = None).
      { subst w2. unfold stopSimulation, seq. cbn. rewrite Href.
        destruct (owned_live w H h Href) as (Hne & _).
        destruct h as [|h]; [congruence |]. cbn. apply lookup_delete_eq. }
      rewrite Hl. exact H2.
    + cbn [fst snd].
      replace (timers (handleExecuteCommand r (nth i autoCommands "undefined") true None w) !! h)
        with (timers w !! h) by reflexivity.
      rewrite Ht.
      pose proof (owned_handleExecuteCommand r (nth i autoCommands "undefined") true None w H)
        as [A B C D].
      destruct (B h Href) as (B1 & B2 & _).
      constructor; cbn.
      * intros h' t' Hl Hi. apply lookup_insert_Some in Hl as [[<- _]|[_ Hl]]; [exact Href |].
        now apply (A h' t').
      * intros h' Hh'. destruct (B h' Hh') as (B1' & B2' & _).
        split; [exact B1' |]. split; [exact B2' |].
        assert (h' = h) as -> by (cbn in Hh'; congruence).
        eexists. split; [apply lookup_insert_eq | reflexivity].
      * exact C.
      * exact D.
  - apply owned_quiet with (with_timers (delete h (timers w)) w).
    + apply quiet_followUp.
    + destruct H as [A B C D]. constructor; cbn.
      * intros h' t' Hl Hi. apply lookup_delete_Some in Hl as [_ Hl]. now apply (A h' t').
      * intros h' Hh'. destruct (B h' Hh') as (B1 & B2 & t' & B3 & B4).
        split; [exact B1 |]. split; [exact B2 |]. exists t'. split; [| exact B4].
        rewrite lookup_delete_ne; [exact B3 |]. intros <-. rewrite Ht in B3.
        injection B3 as <-. discriminate.
      * exact C.
      * exact D.
Qed.

Lemma owned_step e w w' : step e w = Some w' -> owned w -> owned w'.
Proof.
  intros Hstep H.
  assert (D : (exists h t, e = Fire h /\ timers w !! h = Some t /\ is_interval t = true)
              \/ (forall h t, e = Fire h -> timers w !! h = Some t -> is_interval t = false)).
  { destruct e; try (right; intros; discriminate).
    destruct (timers w !! h) as [t|] eqn:E; [destruct (is_interval t) eqn:Ei |].
    - left. eauto.
    - right. intros h' t' [= <-] Ht. congruence.
    - right. intros h' t' [= <-] Ht. congruence. }
  destruct (keeps_run e) eqn:Hk.
  - destruct D as [(h & t & -> & Ht & Hi) | D].
    + cbn in Hstep. rewrite Ht in Hstep.
      destruct (N.leb _ _); [| discriminate]. injection Hstep as <-.
      now apply owned_fire.
    + exact (owned_quiet w w' (quiet_step e w w' Hk Hstep D) H).
  - destruct e; try discriminate Hk; cbn in Hstep; injection Hstep as <-.
    + unfold toggleSimulation. destruct (isRunning (st w)) eqn:Hr.
      * now apply owned_stopSimulation.
      * now apply owned_startSimulation.
    + unfold clearHistory, seq, when.
      set (w1 := setState _ _).
      assert (H1 : owned w1) by (revert H; apply owned_frame; reflexivity || apply le_n).
      destruct (isRunning (st w)); [now apply owned_stopSimulation | exact H1].
Qed.

Lemma owned_initial t0 : owned (initialWorld t0).
Proof.
  constructor; cbn.
  - intros h t Hl. rewrite lookup_empty in Hl. discriminate.
  - discriminate.
  - split; [discriminate | intros [? ?]; discriminate].
  - lia.
Qed.

Lemma owned_run es w w' : run es w = Some w' -> owned w -> owned w'.
Proof.
  revert w. induction es as [|e es IH]; intros w Hrun H; cbn in Hrun.
  - now injection Hrun as <-.
  - destruct (step e w) as [w1|] eqn:Hstep; [| discriminate].
    exact (IH w1 Hrun (owned_step e w w1 Hstep H)).
Qed.

(** X3. In every state the session reaches there is at most one repeating
    timer. While [isRunning] is true it is armed and [intervalRef] holds
    its handle; while [isRunning] is false [intervalRef] is [null] and no
    repeating timer is left in the table. *)
Theorem repeating_timer_follows_isRunning (t0 : N) (es : list Event) (w : World) :
  run es (initialWorld t0) = Some w ->
  (isRunning (st w) = true ->
   exists h p d i r, intervalRef w = Some h /\ timers w !! h = Some (Interval p d i r))
  /\ (isRunning (st w) = false -> intervalRef w = None /\ no_interval w)
  /\ (forall h h' t t', timers w !! h = Some t -> timers w !! h' = Some t' ->
                        is_interval t = true -> is_interval t' = true -> h = h').
Proof.
  intros Hrun. pose proof (owned_run es _ w Hrun (owned_initial t0)) as [A B C D].
  split; [| split].
  - intros Hr. apply C in Hr as [h Hh]. destruct (B h Hh) as (_ & _ & t & Ht & Hi).
    destruct t as [p d i r|]; [| discriminate]. eauto 10.
  - intros Hr.
    assert (Hnone : intervalRef w = None).
    { destruct (intervalRef w) eqn:E; [| reflexivity].
      assert (is_Some (Some n)) as Hs by eauto. apply C in Hs. congruence. }
    split; [exact Hnone |]. intros h t Ht.
    destruct (is_interval t) eqn:Hi; [| reflexivity].
    specialize (A h t Ht Hi). congruence.
  - intros h h' t t' Ht Ht' Hi Hi'.
    pose proof (A h t Ht Hi). pose proof (A h' t' Ht' Hi'). congruence.
Qed.

Lemma repeating_timer_follows_isRunning_witness :
  run [ClickToggle] (initialWorld 1000) = Some worldStarted
  /\ exists h p d i r,
       intervalRef worldStarted = Some h /\ timers worldStarted !! h = Some (Interval p d i r).
Proof.
  split; [reflexivity |].
  exact (proj1 (repeating_timer_follows_isRunning 1000 [ClickToggle] worldStarted eq_refl)
               eq_refl).
Defined.

(** X4. [stopSimulation] may be called at any time and twice in a row:
    after it [isRunning] is false; the second call changes neither the
    timer table nor [intervalRef] and only writes its notice again. When
    no timer was armed the first call leaves the timer table as it was. *)
Theorem stopSimulation_is_idempotent (w : World) :
  isRunning (st (stopSimulation w)) = false
  /\ isRunning (st (stopSimulation (stopSimulation w))) = false
  /\ timers (stopSimulation (stopSimulation w)) = timers (stopSimulation w)
  /\ intervalRef (stopSimulation (stopSimulation w)) = intervalRef (stopSimulation w)
  /\ lines (stopSimulation (stopSimulation w))
     = lines (stopSimulation w) ++ [(SYS_LOG, "[SYSTEM] Simulation halted by operator.")]
  /\ (intervalRef w = None -> timers (stopSimulation w) = timers w)
  /\ awaiting (stopSimulation w) = awaiting w.
Proof.
  unfold stopSimulation, seq, lines. cbn.
  destruct (intervalRef w) as [[|h]|] eqn:E; cbn; rewrite ?E; cbn; rewrite ?map_app;
    repeat split; intros; congruence.
Qed.

End TimerSpec.

Module HandlerSpec.
Import Js App Invariants Answers View SessionSpec.

(** ** Settlements *)

(** X5. Whenever a request of one of the four handlers settles, with a
    value or with a rejection, the in-flight flag is false afterwards,
    nothing is left uncaught and the other pending requests stay pending.
    A rejection appends exactly one line to the log and changes none of
    the results, the builder params, the timers or the calls issued. *)
Theorem settlement_clears_the_flag (w w' : World) (h : nat) (k : Continuation) (s : Settlement) :
  awaiting w !! h = Some k -> coordinated k = true ->
  step (Settle h s) w = Some w' ->
  isAnalyzing (st w') = false
  /\ unhandled w' = unhandled w
  /\ awaiting w' = delete h (awaiting w)
  /\ (rejection s = true ->
      (exists line, lines w' = lines w ++ [(SYS_LOG, line)])
      /\ results (st w') = results (st w)
      /\ timers w' = timers w /\ issued w' = issued w).
Proof.
  intros Hk Hc Hstep. unfold step in Hstep. rewrite Hk in Hstep.
  destruct k, s; try discriminate; cbn in Hstep; injection Hstep as <-.
  - destruct o as [[v d]|e]; cbn.
    + unfold when. destruct (default false _); cbn; repeat split; discriminate.
    + repeat split. eexists. unfold lines. cbn. rewrite map_app. reflexivity.
  - destruct o as [v|e]; cbn.
    + repeat split; discriminate.
    + repeat split. eexists. unfold lines. cbn. rewrite map_app. reflexivity.
  - destruct o as [v|e]; cbn.
    + unfold when. destruct (_ || _); cbn; repeat split; discriminate.
    + repeat split. eexists. unfold lines. cbn. rewrite map_app. reflexivity.
  - destruct o as [v|e]; cbn.
    + repeat split; discriminate.
    + repeat split. eexists. unfold lines. cbn. rewrite map_app. reflexivity.
Qed.

Lemma settlement_clears_the_flag_witness :
  awaiting worldInFlight !! 1 = Some KAnalysis
  /\ coordinated KAnalysis = true
  /\ step (Settle 1 (SAnalysis (Rejected "NetworkError"))) worldInFlight
     = Some (handleAnalysis_settled (Rejected "NetworkError")
               (with_awaiting (delete 1 (awaiting worldInFlight)) worldInFlight))
  /\ isAnalyzing (st (handleAnalysis_settled (Rejected "NetworkError")
                        (with_awaiting (delete 1 (awaiting worldInFlight)) worldInFlight)))
     = false.
Proof.
  split; [reflexivity |]. split; [reflexivity |]. split; [reflexivity |].
  exact (proj1 (settlement_clears_the_flag worldInFlight _ 1 KAnalysis
                  (SAnalysis (Rejected "NetworkError")) eq_refl eq_refl eq_refl)).
Defined.

(** ** The import of builder params *)

(** X6. The params of an import are merged into the builder params as
    they are when the answer arrives, not as they were when the import
    was submitted: a field the operator edits while the request is
    pending keeps the edit unless the answer has that field. The answer
    also sets the environment; the import buffer is emptied and the
    in-flight flag cleared. *)
Theorem import_merges_into_current_params
    (w : World) (f : BuilderField) (v : string) (result : ImportResult.t) :
  truthy (trim (importPdu (st w))) = true ->
  exists w',
    run [ClickMap; EditBuilder f v;
         Settle (nextHandle w) (SImport (Resolved result))] w = Some w'
    /\ builderParams (st w')
       = StkBuilderParams.spread (edit f v (builderParams (st w))) (ImportResult.params result)
    /\ stkType (st w') = Some (ImportResult.stkType result)
    /\ importPdu (st w') = EmptyString
    /\ isAnalyzing (st w') = false.
Proof.
  intros H. unfold run, step, handleImportPdu. rewrite H. cbn.
  rewrite lookup_insert_eq. cbn. eexists. split; [reflexivity |]. repeat split.
Qed.

Lemma import_merges_into_current_params_witness :
  truthy (trim (importPdu (st worldWithResults))) = true
  /\ exists w',
       run [ClickMap; EditBuilder FPinOrPassword "1234";
            Settle 1 (SImport (Resolved {| ImportResult.params := sampleImport;
                                           ImportResult.stkType := "WIB" |}))]
           worldWithResults = Some w'
       /\ StkBuilderParams.pinOrPassword (builderParams (st w')) = Some "1234"
       /\ StkBuilderParams.displayText (builderParams (st w')) = Some "Balance"
       /\ stkType (st w') = Some "WIB".
Proof.
  split; [reflexivity |].
  destruct (import_merges_into_current_params worldWithResults FPinOrPassword "1234"
              {| ImportResult.params := sampleImport; ImportResult.stkType := "WIB" |}
              eq_refl) as (w' & H1 & H2 & H3 & _).
  exists w'. split; [exact H1 |]. rewrite H2, H3. repeat split.
Defined.

(** ** Examples *)

(** X7. Applying an example that passes one of the three tests of
    [applyExample] appends exactly one [SYS_LOG] line and does nothing
    else outside the form: no oracle call, no timer, no pending request,
    and the in-flight and running flags keep their values. *)
Theorem applyExample_logs_once (r : State) (ex : Example.t) (w : World) :
  applicable ex = true ->
  (exists msg, lines (applyExample r ex w) = lines w ++ [(SYS_LOG, msg)])
  /\ issued (applyExample r ex w) = issued w
  /\ timers (applyExample r ex w) = timers w
  /\ awaiting (applyExample r ex w) = awaiting w
  /\ isAnalyzing (st (applyExample r ex w)) = isAnalyzing (st w)
  /\ isRunning (st (applyExample r ex w)) = isRunning (st w).
Proof.
  unfold applicable, applyExample. intros H.
  destruct (String.eqb (Example.type ex) "analyzer" && _).
  { split; [eexists; unfold lines; cbn; rewrite map_app; reflexivity | repeat split]. }
  destruct (String.eqb (Example.type ex) "stk" && _).
  { split; [eexists; unfold lines; cbn; rewrite map_app; reflexivity | repeat split]. }
  destruct (String.eqb (Example.type ex) "termux"); [| discriminate H].
  split; [eexists; unfold lines; cbn; rewrite map_app; reflexivity | repeat split].
Qed.

Lemma applyExample_logs_once_witness :
  applicable wibImeiAudit = true
  /\ lines (applyExample initialState wibImeiAudit (initialWorld 1000))
     = [(SYS_LOG, "[EXAMPLE] Loaded WIB IMEI Audit into STK Builder.")].
Proof.
  split; [reflexivity |].
  destruct (applyExample_logs_once initialState wibImeiAudit (initialWorld 1000) eq_refl)
    as [_ _].
  reflexivity.
Defined.

(** Every entry of the catalog passes its test. *)
Lemma catalog_is_applicable : forallb applicable educationalExamples = true.
Proof. reflexivity. Qed.

(** X8. An example that passes none of the tests (a type other than
    analyzer, stk and termux; an analyzer entry whose [pdu] is absent or
    empty; an stk entry without [params]) is ignored: [applyExample]
    changes nothing and logs nothing. *)
Theorem applyExample_ignores_the_rest (r : State) (ex : Example.t) (w : World) :
  applicable ex = false -> applyExample r ex w = w.
Proof.
  unfold applicable, applyExample. intros H.
  destruct (String.eqb (Example.type ex) "analyzer" && _); [discriminate H |].
  destruct (String.eqb (Example.type ex) "stk" && _); [discriminate H |].
  destruct (String.eqb (Example.type ex) "termux"); [discriminate H | reflexivity].
Qed.

Lemma applyExample_ignores_the_rest_witness :
  applicable unknownExample = false
  /\ applyExample initialState unknownExample (initialWorld 1000) = initialWorld 1000.
Proof.
  split; [reflexivity |].
  exact (applyExample_ignores_the_rest initialState unknownExample (initialWorld 1000) eq_refl).
Defined.

(** ** A successful analysis *)





(** The literals the three [catch] blocks of the client return are of the
    declared shapes. *)
Lemma fallbacks_are_typed :
  AnalysisResult_of_json GeminiService.analysis_fallback
  = Some {| AnalysisResult.isSilent := false;
            AnalysisResult.explanation := "Failed to parse analysis results.";
            AnalysisResult.riskLevel := Low;
            AnalysisResult.mitigation := "Ensure the PDU string is valid hex format.";
            AnalysisResult.isStkCommand := None; AnalysisResult.targetApp := None |}
  /\ DecodedPdu_of_json GeminiService.decode_fallback = Some {| DecodedPdu.components := [] |}
  /\ is_Some (ImportResult_of_json GeminiService.import_fallback).
Proof. repeat split. vm_compute. eauto. Qed.

(** ** The displays *)

(** X10. The side panel shows the current command before anything else,
    then the educational text if it is not empty, and the analysis only
    after both: when an analysis succeeds while a command or a text is
    current, its result is stored but the panel keeps showing the
    command or the text. *)
Theorem analysis_result_is_shown_last
    (w : World) (h : nat) (v : AnalysisResult.t) (d : DecodedPdu.t) :
  awaiting w !! h = Some KAnalysis ->
  exists w',
    step (Settle h (SAnalysis (Resolved (v, d)))) w = Some w'
    /\ currentAnalysis (st w') = Some v
    /\ panel (st w')
       = match stkCommand (st w) with
         | Some c => PayloadDetails c
         | None =>
             if truthy (default EmptyString (educationalContent (st w)))
             then KnowledgeText (default EmptyString (educationalContent (st w)))
             else ScanResult v
         end.
Proof.
  intros Hk. unfold step. rewrite Hk. cbn.
  eexists. split; [reflexivity |].
  unfold handleAnalysis_settled, seq, when, panel.
  destruct (default false _); cbn; (split; [reflexivity |]);
    destruct (stkCommand (st w)); try reflexivity;
    destruct (truthy _); reflexivity.
Qed.

Lemma analysis_result_is_shown_last_witness :
  awaiting worldInFlightWithCommand !! 1 = Some KAnalysis
  /\ exists w',
       step (Settle 1 (SAnalysis (Resolved (stkAnalysis, sampleDecoded))))
            worldInFlightWithCommand = Some w'
       /\ currentAnalysis (st w') = Some stkAnalysis
       /\ panel (st w') = PayloadDetails sampleCommand.
Proof.
  split; [reflexivity |].
  destruct (analysis_result_is_shown_last worldInFlightWithCommand 1 stkAnalysis sampleDecoded
              eq_refl) as (w' & Hs & Hc & Hp).
  exists w'. split; [exact Hs |]. split; [exact Hc | exact Hp].
Defined.

(** X11. A topic request that is answered stores the text, clears the
    flag and writes nothing to the log; the text is displayed unless a
    command is current or the text is missing or empty, and the return
    button takes it off the panel again. A request that fails writes one
    line and leaves the text as it was. *)
Theorem topic_answer_is_silent (w : World) (h : nat) (o : Outcome (option string)) :
  awaiting w !! h = Some KEducation ->
  exists w',
    step (Settle h (SText o)) w = Some w'
    /\ isAnalyzing (st w') = false
    /\ match o with
       | Resolved answer =>
           educationalContent (st w') = answer
           /\ lines w' = lines w
           /\ (stkCommand (st w) = None -> truthy (default EmptyString answer) = true ->
               panel (st w') = KnowledgeText (default EmptyString answer)
               /\ exists w'', step ClickReturn w' = Some w''
                              /\ panel (st w'') = match currentAnalysis (st w) with
                                                  | Some a => ScanResult a
                                                  | None => TopicButtons
                                                  end)
       | Rejected _ =>
           educationalContent (st w') = educationalContent (st w)
           /\ lines w' = lines w ++ [(SYS_LOG, "[ERR] Failed to fetch education module.")]
       end.
Proof.
  intros Hk. unfold step. rewrite Hk. cbn.
  eexists. split; [reflexivity |]. split; [destruct o; reflexivity |].
  destruct o as [answer | e]; cbn.
  - split; [reflexivity |]. split; [reflexivity |].
    intros Hc Ht. unfold panel. cbn. rewrite Hc, Ht. split; [reflexivity |].
    eexists. split; [reflexivity |]. cbn. rewrite Hc. reflexivity.
  - split; [reflexivity |]. unfold lines. cbn. now rewrite map_app.
Qed.

Lemma topic_answer_is_silent_witness :
  awaiting worldTopicPending !! 1 = Some KEducation
  /\ exists w',
       step (Settle 1 (SText (Resolved (Some "S@T Browser")))) worldTopicPending = Some w'
       /\ lines w' = lines worldTopicPending
       /\ panel (st w') = KnowledgeText "S@T Browser".
Proof.
  split; [reflexivity |].
  destruct (topic_answer_is_silent worldTopicPending 1 (Resolved (Some "S@T Browser")) eq_refl)
    as (w' & Hs & _ & _ & Hl & Hp).
  exists w'. split; [exact Hs |]. split; [exact Hl |].
  exact (proj1 (Hp eq_refl eq_refl)).
Defined.

(** X12. The log view never uses the error style of [TerminalOutput]: a
    line is a command line exactly when its entry is a [TERMUX_CMD], a
    success line exactly when it is a [SUCCESS], carries the receive
    prefix exactly when it is a [RECV_DATA], and every other entry,
    failure notices included, is shown as a warning or as information. *)
Theorem log_view_never_uses_error_style (item : HistoryItem.t) :
  outputType item <> error
  /\ (outputType item = cmd <-> HistoryItem.type item = TERMUX_CMD)
  /\ (outputType item = success <-> HistoryItem.type item = SUCCESS)
  /\ (outputPrefix item = "<<< [RECV]" <-> HistoryItem.type item = RECV_DATA)
  /\ (HistoryItem.type item = RECV_DATA -> outputType item = warn).
Proof.
  unfold outputType, outputPrefix.
  destruct (HistoryItem.type item); try destruct (_ || _);
    repeat split; intros; congruence.
Qed.

End HandlerSpec.

(** * Pending requests *)

Module PendingSpec.
Import Js App Invariants SessionSpec.

Lemma pends_grow w w' :
  awaiting w' = awaiting w -> nextHandle w <= nextHandle w' -> pends w w'.
Proof.
  intros Ha Hn. constructor.
  - exact Hn.
  - intros h k Hk _. now rewrite Ha.
  - intros Hf h Hh. rewrite Ha in Hh. specialize (Hf h Hh). lia.
Qed.

Lemma pends_same w w' : awaiting w' = awaiting w -> nextHandle w' = nextHandle w -> pends w w'.
Proof. intros Ha Hn. apply pends_grow; [exact Ha | lia]. Qed.

Lemma pends_refl w : pends w w.
Proof. now apply pends_same. Qed.

Lemma pends_trans w1 w2 w3 : pends w1 w2 -> pends w2 w3 -> pends w1 w3.
Proof.
  intros [N1 K1 F1] [N2 K2 F2]. constructor.
  - lia.
  - intros h k Hk Hh. apply K2; [now apply K1 | lia].
  - auto.
Qed.

Lemma pends_skip : steps pends skip.
Proof. intros w. apply pends_refl. Qed.

Lemma pends_seq a1 a2 : steps pends a1 -> steps pends a2 -> steps pends (a1 >> a2).
Proof. intros H1 H2 w. exact (pends_trans _ _ _ (H1 w) (H2 (a1 w))). Qed.

Lemma pends_when c a : steps pends a -> steps pends (when c a).
Proof. intros Ha. destruct c; [exact Ha | apply pends_skip]. Qed.

Lemma pends_setState f : steps pends (setState f).
Proof. intros w. now apply pends_same. Qed.

Lemma pends_addLog c t : steps pends (addLog c t).
Proof. intros w. now apply pends_same. Qed.

Lemma pends_call o : steps pends (call o).
Proof. intros w. now apply pends_same. Qed.

Lemma pends_setTimeout c d : steps pends (setTimeout c d).
Proof. intros w. apply pends_grow; [reflexivity | cbn; lia]. Qed.

Lemma pends_suspend k : steps pends (suspend k).
Proof.
  intros w. constructor.
  - cbn. lia.
  - intros h k' Hk Hh. cbn. rewrite lookup_insert_ne by lia. exact Hk.
  - intros Hf h Hh. cbn in Hh |- *.
    destruct (decide (h = nextHandle w)) as [-> | Hne]; [lia |].
    rewrite lookup_insert_ne in Hh by congruence. specialize (Hf h Hh). lia.
Qed.

Ltac split_pends :=
  repeat match goal with
  | |- steps _ (_ >> _) => apply pends_seq
  | |- steps _ skip => apply pends_skip
  | |- steps _ (when _ _) => apply pends_when
  | |- steps _ (setState _) => apply pends_setState
  | |- steps _ (addLog _ _) => apply pends_addLog
  | |- steps _ (call _) => apply pends_call
  | |- steps _ (suspend _) => apply pends_suspend
  | |- steps _ (setTimeout _ _) => apply pends_setTimeout
  | |- steps _ (match ?o with _ => _ end) => destruct o
  end.

Lemma pends_stopSimulation : steps pends stopSimulation.
Proof.
  unfold stopSimulation. split_pends.
  intros w. apply pends_same; destruct (intervalRef w) as [[|h]|]; reflexivity.
Qed.

Lemma pends_handleExecuteCommand r c isAuto params :
  steps pends (handleExecuteCommand r c isAuto params).
Proof. unfold handleExecuteCommand. split_pends. Qed.

Lemma pends_runNext r i w : pends w (runNext r i w).1.
Proof.
  unfold runNext. destruct (Nat.leb _ _); cbn.
  - apply (pends_seq _ _ (pends_addLog _ _) pends_stopSimulation).
  - apply pends_handleExecuteCommand.
Qed.

Lemma pends_startSimulation r : steps pends (startSimulation r).
Proof.
  intros w. unfold startSimulation.
  set (w1 := (_ >> _) w).
  assert (H1 : pends w w1).
  { subst w1. revert w.
    match goal with |- forall w, pends w (?a w) => change (steps pends a) end.
    split_pends. }
  pose proof (pends_runNext r 0 w1) as H2.
  destruct (runNext r 0 w1) as [w2 index]. cbn in H2.
  apply (pends_trans _ _ _ H1), (pends_trans _ _ _ H2).
  apply pends_grow; [reflexivity | cbn; lia].
Qed.

Lemma pends_fire h t w : pends w (fire h t w).
Proof.
  destruct t as [p d i r | d c]; cbn.
  - pose proof (pends_runNext r i w) as H2.
    destruct (runNext r i w) as [w2 index]. cbn in H2.
    destruct (timers w2 !! h); [| exact H2].
    apply (pends_trans _ _ _ H2). now apply pends_same.
  - apply pends_trans with (with_timers (delete h (timers w)) w); [now apply pends_same |].
    generalize (with_timers (delete h (timers w)) w). clear w.
    change (steps pends (followUp c)). unfold followUp. split_pends.
Qed.

Lemma pends_resume k s a : resume k s = Some a -> steps pends a.
Proof.
  intros Hr. destruct k, s; cbn in Hr; try discriminate; injection Hr as <-.
  - unfold handleAnalysis_settled. split_pends.
  - unfold handleImportPdu_settled. split_pends.
  - unfold handleExecuteCommand_settled. split_pends.
  - unfold followUp_settled. split_pends. intros w. now apply pends_same.
  - unfold fetchEducation_settled. split_pends.
Qed.

Lemma pends_handleAnalysis r : steps pends (handleAnalysis r).
Proof. unfold handleAnalysis. split_pends. Qed.

Lemma pends_handleImportPdu r : steps pends (handleImportPdu r).
Proof. unfold handleImportPdu. split_pends. Qed.

Lemma pends_fetchEducation topic : steps pends (fetchEducation topic).
Proof. unfold fetchEducation. split_pends. Qed.

Lemma pends_applyExample r ex : steps pends (applyExample r ex).
Proof. unfold applyExample. split_pends. Qed.

Lemma pends_clearHistory r : steps pends (clearHistory r).
Proof. unfold clearHistory. split_pends. apply pends_stopSimulation. Qed.

(** A settlement takes its own request out of the table and nothing else. *)
Lemma pends_settle h w :
  nextHandle (with_awaiting (delete h (awaiting w)) w) = nextHandle w
  /\ (forall h' k, h' <> h -> awaiting w !! h' = Some k ->
                   awaiting (with_awaiting (delete h (awaiting w)) w) !! h' = Some k)
  /\ (fresh w -> fresh (with_awaiting (delete h (awaiting w)) w)).
Proof.
  split; [reflexivity |]. split.
  - intros h' k Hne Hk. cbn. now rewrite lookup_delete_ne.
  - intros Hf h' [k Hk]. cbn in Hk |- *.
    apply lookup_delete_Some in Hk as [_ Hk]. apply Hf. eauto.
Qed.

(** No event but its own settlement touches a pending request, and
    handles are never given out twice. *)
Lemma pending_step e w w' h k :
  step e w = Some w' -> fresh w ->
  (settles h e = false -> awaiting w !! h = Some k -> awaiting w' !! h = Some k)
  /\ fresh w'.
Proof.
  intros Hstep Hf.
  assert (Hlt : forall k, awaiting w !! h = Some k -> h < nextHandle w) by (intros; apply Hf; eauto).
  assert (Hp : pends w w' -> (settles h e = false -> awaiting w !! h = Some k ->
                              awaiting w' !! h = Some k) /\ fresh w').
  { intros [N K F]. split; [intros _ Hk; apply K; eauto | auto]. }
  destruct e; cbn in Hstep; try (injection Hstep as <-);
    try (apply Hp; apply pends_setState).
  - apply Hp, pends_handleAnalysis.
  - apply Hp, pends_handleImportPdu.
  - apply Hp. unfold handleBuilderSubmit. apply pends_handleExecuteCommand.
  - apply Hp. unfold toggleSimulation. destruct (isRunning (st w)).
    + apply pends_stopSimulation.
    + apply pends_startSimulation.
  - apply Hp, pends_fetchEducation.
  - destruct (educationalExamples !! i); [| discriminate]. injection Hstep as <-.
    apply Hp, pends_applyExample.
  - apply Hp, pends_clearHistory.
  - apply Hp, pends_addLog.
  - destruct (awaiting w !! h0) as [k0|] eqn:E0; [| discriminate].
    destruct (resume k0 s) as [a|] eqn:Ha; [| discriminate]. injection Hstep as <-.
    destruct (pends_settle h0 w) as (Hn & Hk' & Hf').
    destruct (pends_resume _ _ _ Ha (with_awaiting (delete h0 (awaiting w)) w)) as [N K F].
    split; [| apply F, Hf', Hf].
    intros Hs Hk. cbn in Hs. apply Nat.eqb_neq in Hs.
    apply K; [apply Hk'; [congruence | exact Hk] | rewrite Hn; eauto].
  - destruct (timers w !! h0) as [t|]; [| discriminate].
    destruct (N.leb _ _); [| discriminate]. injection Hstep as <-.
    apply Hp, pends_fire.
  - apply Hp. now apply pends_same.
Qed.

Lemma fresh_initial t0 : fresh (initialWorld t0).
Proof. intros h [k Hk]. cbn in Hk. now rewrite lookup_empty in Hk. Qed.

Lemma fresh_run es w w' : run es w = Some w' -> fresh w -> fresh w'.
Proof.
  revert w. induction es as [|e es IH]; intros w Hrun Hf; cbn in Hrun.
  - now injection Hrun as <-.
  - destruct (step e w) as [w1|] eqn:Hs; [| discriminate].
    apply (IH w1 Hrun). exact (proj2 (pending_step e w w1 0 KAnalysis Hs Hf)).
Qed.

Lemma pending_run es w w' h k :
  run es w = Some w' -> fresh w -> forallb (fun e => negb (settles h e)) es = true ->
  awaiting w !! h = Some k -> awaiting w' !! h = Some k.
Proof.
  revert w. induction es as [|e es IH]; intros w Hrun Hf Hes Hk; cbn in Hrun.
  - now injection Hrun as <-.
  - destruct (step e w) as [w1|] eqn:Hs; [| discriminate].
    cbn in Hes. apply andb_true_iff in Hes as [He Hes]. apply negb_true_iff in He.
    destruct (pending_step e w w1 h k Hs Hf) as [Hkeep Hf1].
    apply (IH w1 Hrun Hf1 Hes). now apply Hkeep.
Qed.

(** X13. Nothing in the component cancels a request: in every session,
    a request that is pending stays pending, with its continuation,
    through every sequence of events that does not contain its own
    settlement; a reset, a stop of the scripted run, a timer and the
    settlements of other requests leave it in place. *)
Theorem pending_request_is_never_cancelled
    (t0 : N) (es0 es : list Event) (w w' : World) (h : nat) (k : Continuation) :
  run es0 (initialWorld t0) = Some w ->
  awaiting w !! h = Some k ->
  run es w = Some w' ->
  forallb (fun e => negb (settles h e)) es = true ->
  awaiting w' !! h = Some k.
Proof.
  intros H0 Hk Hrun Hes.
  apply (pending_run es w w' h k Hrun); [| exact Hes | exact Hk].
  exact (fresh_run es0 _ _ H0 (fresh_initial t0)).
Qed.

Lemma pending_request_is_never_cancelled_witness :
  exists w',
    run [ClickReset; ClickToggle; ClickToggle; Elapse 9000] worldTopicPending = Some w'
    /\ awaiting w' !! 1 = Some KEducation.
Proof.
  eexists. split; [reflexivity |].
  apply (pending_request_is_never_cancelled 1000 [ClickTopic "Simjacker"]
           [ClickReset; ClickToggle; ClickToggle; Elapse 9000] worldTopicPending _ 1 KEducation);
    reflexivity.
Defined.

(** X14. Whether the command of a submitted builder form is followed up
    is fixed when the form is submitted: whatever the session does
    between the submission and the answer, the follow-up timer is armed,
    2500 ms ahead, exactly when the scripted run was active in the render
    that submitted the form. Starting or stopping the run in between does
    not change it. *)
Theorem builder_follow_up_fixed_at_submission
    (t0 : N) (es0 es : list Event) (w w2 : World) (info : StkCommand.t) :
  run es0 (initialWorld t0) = Some w ->
  run (SubmitBuilder :: es) w = Some w2 ->
  forallb (fun e => negb (settles (nextHandle w) e)) es = true ->
  exists w3,
    step (Settle (nextHandle w) (SCommand (Resolved info))) w2 = Some w3
    /\ stkCommand (st w3) = Some info
    /\ timers w3
       = (if isRunning (st w)
          then <[nextHandle w2 := Timeout (now w2 + 2500)%N (intent (builderParams (st w)))]>
                 (timers w2)
          else timers w2).
Proof.
  intros H0 Hrun Hes.
  change (run (SubmitBuilder :: es) w) with (run es (handleBuilderSubmit (st w) w)) in Hrun.
  assert (Hf : fresh w) by exact (fresh_run es0 _ _ H0 (fresh_initial t0)).
  assert (Hf1 : fresh (handleBuilderSubmit (st w) w)).
  { exact (proj2 (pending_step SubmitBuilder w _ 0 KAnalysis eq_refl Hf)). }
  assert (Hk : awaiting (handleBuilderSubmit (st w) w) !! nextHandle w
               = Some (KExecute (st w) (intent (builderParams (st w))) false
                                (Some (builderParams (st w))))).
  { unfold handleBuilderSubmit, handleExecuteCommand, seq, suspend. cbn.
    apply lookup_insert_eq. }
  pose proof (pending_run es _ w2 _ _ Hrun Hf1 Hes Hk) as Hk2.
  destruct (follow_up_condition w2 _ _ _ _ _ info Hk2) as (w3 & Hs & Hc & Ht).
  exists w3. split; [exact Hs |]. split; [exact Hc |].
  rewrite Ht. cbn. now rewrite orb_false_r.
Qed.

Lemma builder_follow_up_fixed_at_submission_witness :
  exists w3,
    isRunning (st worldSubmittedThenStarted) = true
    /\ step (Settle 1 (SCommand (Resolved sampleCommand))) worldSubmittedThenStarted = Some w3
    /\ timers w3 = timers worldSubmittedThenStarted.
Proof.
  assert (E1 : run [SubmitBuilder; ClickToggle] (initialWorld 1000)
               = Some worldSubmittedThenStarted) by (vm_compute; reflexivity).
  assert (E2 : forallb (fun e => negb (settles (nextHandle (initialWorld 1000)) e)) [ClickToggle]
               = true) by (vm_compute; reflexivity).
  destruct (builder_follow_up_fixed_at_submission 1000 [] [ClickToggle] (initialWorld 1000)
              worldSubmittedThenStarted sampleCommand eq_refl E1 E2)
    as (w3 & Hs & _ & Ht).
  assert (E3 : nextHandle (initialWorld 1000) = 1) by reflexivity.
  assert (E4 : isRunning (st (initialWorld 1000)) = false) by reflexivity.
  rewrite E3 in Hs. rewrite E4 in Ht.
  exists w3. split; [vm_compute; reflexivity |]. split; [exact Hs | exact Ht].
Defined.

End PendingSpec.

(** * Where a failure of the oracle client can come from *)

Module ServiceSpec.
Import Js GeminiService.

Lemma parse_or_rejects (JSON_parse : string -> option Json) fallback reply e :
  parse_or JSON_parse fallback reply = Rejected e <-> reply = Rejected e.
Proof.
  unfold parse_or. destruct reply as [response | e'].
  - destruct (parse_text JSON_parse response); split; discriminate.
  - split; intros [= ->]; reflexivity.
Qed.

(** X15. The three functions with a [try] around the parse reject only
    when the remote call itself rejects, and then with its error; a
    response that came back never makes them reject. [getStkCommandInfo]
    rejects when the remote call rejects and also when the response has
    no text or a text that is not JSON, and in no other case. *)
Theorem rejections_of_the_client
    (JSON_parse : string -> option Json) (pdu commandName : string) (stkType : option string)
    (params : option StkBuilderParams.t) (reply : Outcome GenerateContentResponse) :
  (forall e, analyzePduVulnerability JSON_parse pdu reply = Rejected e <-> reply = Rejected e)
  /\ (forall e, decodePdu JSON_parse pdu reply = Rejected e <-> reply = Rejected e)
  /\ (forall e, importStkParamsFromPdu JSON_parse pdu reply = Rejected e <-> reply = Rejected e)
  /\ ((exists e, getStkCommandInfo JSON_parse commandName stkType params reply = Rejected e)
      <-> (exists e, reply = Rejected e)
          \/ (exists response, reply = Resolved response /\ fails_to_parse JSON_parse response)).
Proof.
  repeat split; try apply parse_or_rejects.
  - intros [e He]. unfold getStkCommandInfo in He.
    destruct reply as [response | e']; [right | left; eauto].
    exists response. split; [reflexivity |].
    unfold parse_text in He. unfold fails_to_parse.
    destruct (text response) as [t|]; [| exact I].
    destruct (JSON_parse (trim t)); [discriminate | reflexivity].
  - intros [[e ->] | (response & -> & Hf)].
    + exists e. reflexivity.
    + unfold getStkCommandInfo, parse_text. unfold fails_to_parse in Hf.
      destruct (text response) as [t|]; [rewrite Hf |]; eauto.
Qed.

End ServiceSpec.
